(** * Identity and access core of the user service

    A shallow embedding of [users/models.py], [users/permissions.py] and
    [users/serializers.py]: the relational data model, the two permission
    classes, the registration serializer and the privacy gate of the
    profile serializer, followed by the properties established for them.

    Database rows are records, tables are lists of rows in insertion order,
    and every function that touches the database lives in a state-and-error
    monad over the whole database: an exception leaves the writes made before
    it in place, as the code runs outside any transaction block. *)

From Stdlib Require Import ZArith NArith Ascii.
From stdpp Require Import base option list gmap strings.

Local Open Scope string_scope.
Local Open Scope list_scope.
Local Open Scope Z_scope.

(** ** Primitive column types *)

(** [models.UUIDField]: a 128-bit identifier. *)
Definition UUID : Type := N.

(** [models.DateTimeField]: an instant read off [timezone.now]. *)
Definition datetime : Type := N.

(** Python values handed back by a serializer ([JSONField] contents too). *)
#[local] Unset Elimination Schemes.
Inductive value : Type :=
| VNone
| VBool (b : bool)
| VInt (z : Z)
| VStr (s : string)
| VUuid (u : UUID)
| VTime (t : datetime)
| VList (l : list value)
| VDict (d : list (string * value)).
#[local] Set Elimination Schemes.

(** The ordered dictionary a serializer's [to_representation] returns. *)
Definition representation : Type := list (string * value).

Definition opt_str (o : option string) : value :=
  match o with Some s => VStr s | None => VNone end.

(** ** Exceptions and the database monad *)

Inductive exn : Type :=
| AttributeError
| TypeError
| ValueError
| ValidationError
| IntegrityError
| DataError
| MultipleObjectsReturned.

Inductive result (A : Type) : Type :=
| Ok (a : A)
| Raise (e : exn).
Arguments Ok {A} a.
Arguments Raise {A} e.

Definition result_map {A B} (f : A → B) (r : result A) : result B :=
  match r with Ok a => Ok (f a) | Raise e => Raise e end.

(** ** The models of [users/models.py] *)

(** [class User(AbstractUser)].  Of the columns inherited from
    [AbstractUser] only those read by the embedded code are kept. *)
Module User.
Record t : Type := mk {
  id : UUID;
  username : string;
  email : string;
  display_name : option string;
  is_active : bool;
  is_superuser : bool
}.
End User.

(** [GENDER_CHOICES], in source order. *)
Inductive Gender : Type := male | female | nonbinary | other | unset.

Definition GENDER_CHOICES : list (Gender * string) :=
  [ (male, "Male"); (female, "Female"); (nonbinary, "Non-binary");
    (other, "Other"); (unset, "Unset") ].

Definition gender_key (g : Gender) : string :=
  match g with
  | male => "male" | female => "female" | nonbinary => "nonbinary"
  | other => "other" | unset => "unset"
  end.

(** [class Profile(BaseModel)]; the first four fields are [BaseModel]'s. *)
Module Profile.
Record t : Type := mk {
  id : UUID;
  created_at : datetime;
  updated_at : datetime;
  is_active : bool;
  user : UUID;
  gender : Gender;
  website : option string;
  bio : option string;
  avatar : option string;
  is_private : bool;
  is_verified : bool;
  is_professional : bool;
  links : value;
  posts : list UUID;
  reels : list UUID;
  stories : list UUID;
  saved_posts : list UUID;
  liked_posts : list UUID;
  highlights : list UUID;
  profile_views : Z
}.
End Profile.

(** [class Follow(BaseModel)]. *)
Module Follow.
Record t : Type := mk {
  id : UUID;
  created_at : datetime;
  updated_at : datetime;
  is_active : bool;
  follower : UUID;
  following : UUID
}.
End Follow.

(** [ACCESS_LEVEL_CHOICES], in source order: the position of a level in this
    list is its rank. *)
Inductive AccessLevel : Type := NONE | VIEW | WRITE | FULL.

Definition ACCESS_LEVEL_CHOICES : list (AccessLevel * string) :=
  [ (NONE, "No Access"); (VIEW, "View Only"); (WRITE, "Write"); (FULL, "Full") ].

(** [class Resource(models.Model)]; [id] is the implicit auto-increment key. *)
Module Resource.
Record t : Type := mk {
  id : N;
  name : string;
  description : option string
}.
End Resource.

(** [class Permission(models.Model)]. *)
Module Permission.
Record t : Type := mk {
  id : N;
  resource : N;
  level : AccessLevel
}.
End Permission.

(** [class Role(BaseModel)]; [permissions] holds the keys of the
    many-to-many relation to [Permission]. *)
Module Role.
Record t : Type := mk {
  id : UUID;
  created_at : datetime;
  updated_at : datetime;
  is_active : bool;
  name : string;
  description : option string;
  permissions : list N
}.
End Role.

(** [class UserRole(models.Model)]. *)
Module UserRole.
Record t : Type := mk {
  id : N;
  user : UUID;
  role : UUID;
  assigned_at : datetime
}.
End UserRole.

(** The database: one table per model. *)
Record DB : Type := mkDB {
  users : list User.t;
  profiles : list Profile.t;
  follows : list Follow.t;
  resources : list Resource.t;
  permissions : list Permission.t;
  roles : list Role.t;
  user_roles : list UserRole.t
}.

Definition empty_db : DB := mkDB [] [] [] [] [] [] [].

#[global] Instance AccessLevel_eq_dec : EqDecision AccessLevel.
Proof. solve_decision. Defined.

(** ** The monad: database state threaded through, exceptions as results *)

Definition M (A : Type) : Type := DB → result A * DB.

Definition ret {A} (a : A) : M A := λ db, (Ok a, db).

Definition bind {A B} (m : M A) (k : A → M B) : M B :=
  λ db, match m db with
        | (Ok a, db') => k a db'
        | (Raise e, db') => (Raise e, db')
        end.

Definition raise {A} (e : exn) : M A := λ db, (Raise e, db).

(** A query: reads the database, never writes it. *)
Definition gets {A} (f : DB → A) : M A := λ db, (Ok (f db), db).

(** A write. *)
Definition modify (f : DB → DB) : M unit := λ db, (Ok tt, f db).

Notation "x <~ m ;; k" := (bind m (λ x, k))
  (at level 100, m at next level, k at level 200, right associativity).
Notation "m ;;; k" := (bind m (λ _, k))
  (at level 100, k at level 200, right associativity).

(** ** Requests *)

(** [request.user]: Django's [AnonymousUser] or a [User] instance. *)
Inductive RequestUser : Type :=
| AnonymousUser
| UserInstance (u : User.t).

Module Request.
Record t : Type := mk {
  user : RequestUser;
  method : string
}.
End Request.

(** The view a permission check is run for; the checks never inspect it. *)
Definition APIView : Type := string.

(** [user.is_authenticated]: [False] on [AnonymousUser], [True] on every
    [User] instance. *)
Definition is_authenticated (u : RequestUser) : bool :=
  match u with AnonymousUser => false | UserInstance _ => true end.

(** [user.is_superuser]: [AnonymousUser] carries the constant [False]. *)
Definition is_superuser (u : RequestUser) : bool :=
  match u with AnonymousUser => false | UserInstance u => User.is_superuser u end.

(** [user.user_roles]: the reverse relation of [UserRole.user]; an
    [AnonymousUser] has no such attribute. *)
Definition user_roles_of (u : RequestUser) : M (list UserRole.t) :=
  match u with
  | AnonymousUser => raise AttributeError
  | UserInstance u =>
      gets (λ db, filter (λ ur, UserRole.user ur = User.id u) (user_roles db))
  end.

(** [queryset.filter(role__name=name)]: the join of [UserRole] with [Role]. *)
Definition filter_role__name (name : string) (qs : list UserRole.t) : M (list UserRole.t) :=
  gets (λ db,
    filter (λ ur, Exists (λ r, Role.id r = UserRole.role ur ∧ Role.name r = name)
                         (roles db)) qs).

(** [queryset.exists()]. *)
Definition exists_ {A} (qs : list A) : bool :=
  match qs with [] => false | _ :: _ => true end.

(** ** [users/permissions.py] *)

(** [IsAdmin.has_permission]:
    [request.user.is_authenticated and request.user.is_superuser]. *)
Definition IsAdmin_has_permission (request : Request.t) (view : APIView) : M bool :=
  if is_authenticated (Request.user request)
  then ret (is_superuser (Request.user request))
  else ret false.

(** [IsNormalUser.has_permission]: [request.user.is_authenticated and
    request.user.user_roles.filter(role__name="USER").exists()]; the right
    operand of [and] is evaluated only when the left one is true. *)
Definition IsNormalUser_has_permission (request : Request.t) (view : APIView) : M bool :=
  if is_authenticated (Request.user request)
  then qs <~ user_roles_of (Request.user request) ;;
       qs' <~ filter_role__name "USER" qs ;;
       ret (exists_ qs')
  else ret false.

(** ** [ProfileSerializer] *)

(** [Follow.objects.filter(follower=a, following=b).exists()] on keys. *)
Definition IsFollowing (a b : UUID) (db : DB) : bool :=
  exists_ (filter (λ f, Follow.follower f = a ∧ Follow.following f = b) (follows db)).

(** The same query with [request.user] as the follower: an [AnonymousUser]
    is no valid key for the lookup and the query set raises. *)
Definition Follow_filter_exists (viewer : RequestUser) (following : UUID) : M bool :=
  match viewer with
  | AnonymousUser => raise ValidationError
  | UserInstance v => gets (IsFollowing (User.id v) following)
  end.

(** [viewer != instance.user]: model instances compare by primary key, and
    an [AnonymousUser] differs from every [User]. *)
Definition viewer_ne (viewer : RequestUser) (owner : UUID) : bool :=
  match viewer with
  | AnonymousUser => true
  | UserInstance v => negb (bool_decide (User.id v = owner))
  end.

(** [get_followers_count]: [Follow.objects.filter(following=obj.user).count()]. *)
Definition get_followers_count (obj : Profile.t) : M Z :=
  gets (λ db, Z.of_nat (length
    (filter (λ f, Follow.following f = Profile.user obj) (follows db)))).

(** [get_following_count]: [Follow.objects.filter(follower=obj.user).count()]. *)
Definition get_following_count (obj : Profile.t) : M Z :=
  gets (λ db, Z.of_nat (length
    (filter (λ f, Follow.follower f = Profile.user obj) (follows db)))).

(** The fields of [Meta] ([exclude = ["id"]]): the two declared method
    fields, then the model's columns, then its forward relation. *)
Definition model_fields (instance : Profile.t) : representation :=
  [ ("created_at", VTime (Profile.created_at instance));
    ("updated_at", VTime (Profile.updated_at instance));
    ("is_active", VBool (Profile.is_active instance));
    ("gender", VStr (gender_key (Profile.gender instance)));
    ("website", opt_str (Profile.website instance));
    ("bio", opt_str (Profile.bio instance));
    ("avatar", opt_str (Profile.avatar instance));
    ("is_private", VBool (Profile.is_private instance));
    ("is_verified", VBool (Profile.is_verified instance));
    ("is_professional", VBool (Profile.is_professional instance));
    ("links", Profile.links instance);
    ("posts", VList (VUuid <$> Profile.posts instance));
    ("reels", VList (VUuid <$> Profile.reels instance));
    ("stories", VList (VUuid <$> Profile.stories instance));
    ("saved_posts", VList (VUuid <$> Profile.saved_posts instance));
    ("liked_posts", VList (VUuid <$> Profile.liked_posts instance));
    ("highlights", VList (VUuid <$> Profile.highlights instance));
    ("profile_views", VInt (Profile.profile_views instance));
    ("user", VUuid (Profile.user instance)) ].

(** [super().to_representation(instance)]: every field of the serializer. *)
Definition super_to_representation (instance : Profile.t) : M representation :=
  followers <~ get_followers_count instance ;;
  following <~ get_following_count instance ;;
  ret (("followers_count", VInt followers)
         :: ("following_count", VInt following)
         :: model_fields instance).

(** [self.context]: only the ["request"] key is ever looked up. *)
Module Context.
Record t : Type := mk { request : option Request.t }.
End Context.

Definition private_detail : representation :=
  [ ("detail", VStr "This profile is private. Follow to view details.") ].

(** [ProfileSerializer.to_representation]. *)
Definition to_representation (context : Context.t) (instance : Profile.t) : M representation :=
  match Context.request context with
  | None => super_to_representation instance
  | Some request =>
      let viewer := Request.user request in
      if Profile.is_private instance then
        if viewer_ne viewer (Profile.user instance) then
          is_follower <~ Follow_filter_exists viewer (Profile.user instance) ;;
          if negb is_follower then ret private_detail
          else super_to_representation instance
        else super_to_representation instance
      else super_to_representation instance
  end.

(** ** [RegisterSerializer.create] *)

(** The values the field defaults draw during one call: [uuid.uuid4] for
    each new primary key and [timezone.now] for the timestamps. *)
Module Env.
Record t : Type := mk {
  uuid_user : UUID;
  uuid_profile : UUID;
  uuid_role : UUID;
  now : datetime
}.
End Env.

(** [validated_data]: the keys of [Meta.fields]; a key the client left out
    is [None].  The stored password hash is read by none of the embedded
    code and has no column in [User.t]. *)
Module ValidatedData.
Record t : Type := mk {
  username : string;
  email : string;
  password : string;
  display_name : option string;
  role : option string;
  mobile_number : option string
}.
End ValidatedData.

Definition with_users (f : list User.t → list User.t) (db : DB) : DB :=
  mkDB (f (users db)) (profiles db) (follows db) (resources db)
       (permissions db) (roles db) (user_roles db).

Definition with_profiles (f : list Profile.t → list Profile.t) (db : DB) : DB :=
  mkDB (users db) (f (profiles db)) (follows db) (resources db)
       (permissions db) (roles db) (user_roles db).

Definition with_follows (f : list Follow.t → list Follow.t) (db : DB) : DB :=
  mkDB (users db) (profiles db) (f (follows db)) (resources db)
       (permissions db) (roles db) (user_roles db).

Definition with_roles (f : list Role.t → list Role.t) (db : DB) : DB :=
  mkDB (users db) (profiles db) (follows db) (resources db)
       (permissions db) (f (roles db)) (user_roles db).

Definition with_user_roles (f : list UserRole.t → list UserRole.t) (db : DB) : DB :=
  mkDB (users db) (profiles db) (follows db) (resources db)
       (permissions db) (roles db) (f (user_roles db)).

(** [str.upper] on the ASCII letters. *)
Definition upper_ascii (c : ascii) : ascii :=
  let n := Ascii.N_of_ascii c in
  if ((97 <=? n) && (n <=? 122))%N then Ascii.ascii_of_N (n - 32) else c.

Fixpoint upper (s : string) : string :=
  match s with
  | EmptyString => EmptyString
  | String c s' => String (upper_ascii c) (upper s')
  end.

Definition too_long (max_length : nat) (s : string) : bool :=
  bool_decide (max_length < String.length s)%nat.

(** [User.objects.create_user] on the keywords of [validated_data] once
    ["role"] is popped:
    the manager refuses an empty username, the model constructor refuses a
    keyword that is no field of [User] (the model has no [mobile_number]),
    and the insert is subject to the length and uniqueness constraints. *)
Definition create_user (env : Env.t) (validated_data : ValidatedData.t) : M User.t :=
  if bool_decide (ValidatedData.username validated_data = "") then raise ValueError
  else match ValidatedData.mobile_number validated_data with
  | Some _ => raise TypeError
  | None =>
      let user := User.mk (Env.uuid_user env)
                          (ValidatedData.username validated_data)
                          (ValidatedData.email validated_data)
                          (ValidatedData.display_name validated_data)
                          true false in
      if too_long 150 (User.username user)
         || too_long 254 (User.email user)
         || too_long 150 (default "" (User.display_name user))
      then raise DataError
      else
        taken <~ gets (λ db, exists_ (filter (λ u,
                   User.id u = User.id user
                   ∨ User.username u = User.username user
                   ∨ User.email u = User.email user) (users db))) ;;
        if taken : bool then raise IntegrityError
        else modify (with_users (λ t, t ++ [user])) ;;; ret user
  end.

(** [Profile.objects.create(user=user)]: every other column takes its
    default; the insert checks the primary key, the foreign key and the
    uniqueness of the one-to-one [user] column. *)
Definition Profile_objects_create (env : Env.t) (user : UUID) : M Profile.t :=
  let profile := Profile.mk (Env.uuid_profile env) (Env.now env) (Env.now env) true
                            user unset None None None false false false
                            (VList []) [] [] [] [] [] [] 0 in
  refused <~ gets (λ db,
     exists_ (filter (λ p, Profile.id p = Profile.id profile
                           ∨ Profile.user p = user) (profiles db))
     || negb (exists_ (filter (λ u, User.id u = user) (users db)))) ;;
  if refused : bool then raise IntegrityError
  else modify (with_profiles (λ t, t ++ [profile])) ;;; ret profile.

(** [Role.objects.get_or_create(name=name)]. *)
Definition Role_objects_get_or_create (env : Env.t) (name : string) : M (Role.t * bool) :=
  found <~ gets (λ db, filter (λ r, Role.name r = name) (roles db)) ;;
  match found with
  | [role] => ret (role, false)
  | _ :: _ :: _ => raise MultipleObjectsReturned
  | [] =>
      let role := Role.mk (Env.uuid_role env) (Env.now env) (Env.now env) true
                          name None [] in
      if too_long 128 name then raise DataError
      else
        taken <~ gets (λ db, exists_ (filter (λ r, Role.id r = Role.id role) (roles db))) ;;
        if taken : bool then raise IntegrityError
        else modify (with_roles (λ t, t ++ [role])) ;;; ret (role, true)
  end.

(** The next value of an auto-increment key. *)
Definition next_id (ids : list N) : N := (1 + foldr N.max 0 ids)%N.

(** [UserRole.objects.create(user=user, role=role)]. *)
Definition UserRole_objects_create (env : Env.t) (user role : UUID) : M UserRole.t :=
  refused <~ gets (λ db,
     exists_ (filter (λ ur, UserRole.user ur = user ∧ UserRole.role ur = role)
                     (user_roles db))
     || negb (exists_ (filter (λ u, User.id u = user) (users db)))
     || negb (exists_ (filter (λ r, Role.id r = role) (roles db)))) ;;
  if refused : bool then raise IntegrityError
  else
    key <~ gets (λ db, next_id (UserRole.id <$> user_roles db)) ;;
    let user_role := UserRole.mk key user role (Env.now env) in
    modify (with_user_roles (λ t, t ++ [user_role])) ;;; ret user_role.

(** [RegisterSerializer.create]. *)
Definition RegisterSerializer_create (env : Env.t) (validated_data : ValidatedData.t) : M User.t :=
  let role_name := default "user" (ValidatedData.role validated_data) in
  user <~ create_user env validated_data ;;
  Profile_objects_create env (User.id user) ;;;
  created <~ Role_objects_get_or_create env (upper role_name) ;;
  UserRole_objects_create env (User.id user) (Role.id created.1) ;;;
  ret user.

(** ** The follow graph *)

(** [Follow.objects.create(follower=a, following=b)], the insert behind the
    Graph Store's [AddEdge]: the row takes [BaseModel]'s defaults, and the
    insert is subject to what the model declares, namely the primary key,
    the two foreign keys and [unique_together = ("follower", "following")].
    The model declares nothing that relates [follower] to [following]. *)
Definition Follow_objects_create (key : UUID) (now : datetime)
    (follower following : UUID) : M Follow.t :=
  let edge := Follow.mk key now now true follower following in
  refused <~ gets (λ db,
     exists_ (filter (λ f, Follow.id f = key) (follows db))
     || IsFollowing follower following db
     || negb (exists_ (filter (λ u, User.id u = follower) (users db)))
     || negb (exists_ (filter (λ u, User.id u = following) (users db)))) ;;
  if refused : bool then raise IntegrityError
  else modify (with_follows (λ t, t ++ [edge])) ;;; ret edge.

(** [AddEdge] of the Graph Store: that insert, the new row dropped from the
    result. *)
Definition AddEdge (key : UUID) (now : datetime) (follower following : UUID) : M unit :=
  Follow_objects_create key now follower following ;;; ret tt.

(** Modelled from the spec: [RemoveEdge] of the Graph Store (section 4.1) is
    missing from the sources, which never delete a [Follow] row.  It is an
    idempotent no-op (success) if the edge is absent and removes it
    otherwise: the rows matching the pair are deleted. *)
Definition RemoveEdge (follower following : UUID) : M unit :=
  modify (with_follows
    (filter (λ f, ¬ (Follow.follower f = follower ∧ Follow.following f = following)))).

(** ** Role-based access *)

(** The rank of a level: its position in [ACCESS_LEVEL_CHOICES]. *)
Definition level_rank (l : AccessLevel) : nat :=
  default 0%nat (fst <$> list_find (λ c, c.1 = l) ACCESS_LEVEL_CHOICES).

Definition level_max (a b : AccessLevel) : AccessLevel :=
  if (level_rank a <? level_rank b)%nat then b else a.

(** The roles assigned to an identity: [UserRole] joined with [Role]. *)
Definition assigned_roles (identity : UUID) (db : DB) : list Role.t :=
  ur ← filter (λ ur, UserRole.user ur = identity) (user_roles db);
  filter (λ r, Role.id r = UserRole.role ur) (roles db).

(** The (resource name, level) pairs of a role: [Role.permissions] joined
    with [Permission] and [Resource]. *)
Definition role_grants (db : DB) (role : Role.t) : list (string * AccessLevel) :=
  key ← Role.permissions role;
  p ← filter (λ p, Permission.id p = key) (permissions db);
  res ← filter (λ res, Resource.id res = Permission.resource p) (resources db);
  [(Resource.name res, Permission.level p)].

(** Everything granted to an identity through any of its roles. *)
Definition grants (identity : UUID) (db : DB) : list (string * AccessLevel) :=
  role ← assigned_roles identity db; role_grants db role.

(** Modelled from the spec: the composition step of [Resolve], missing from
    the sources.  For permissions sharing the same resource the maximum
    access level is taken: the running table from resource name to level
    keeps the higher of the level held and the level granted. *)
Definition take_max (grant : string * AccessLevel) (acc : gmap string AccessLevel)
    : gmap string AccessLevel :=
  <[ grant.1 := match acc !! grant.1 with
                | Some held => level_max grant.2 held
                | None => grant.2
                end ]> acc.

(** Modelled from the spec: [Resolve] of the RBAC Store (section 4.2) is
    missing from the sources, which hold only the tables it reads.  It is the
    union over all assigned roles' permissions, with the maximum access level
    taken for permissions sharing the same resource. *)
Definition Resolve (identity : UUID) (db : DB) : gmap string AccessLevel :=
  foldr take_max ∅ (grants identity db).

(** A permission of the given level on the named resource belongs to a role
    assigned to the identity. *)
Definition granted (identity : UUID) (db : DB) (name : string) (level : AccessLevel) : Prop :=
  ∃ ur role p res,
    ur ∈ user_roles db ∧ UserRole.user ur = identity
    ∧ role ∈ roles db ∧ Role.id role = UserRole.role ur
    ∧ Permission.id p ∈ Role.permissions role ∧ p ∈ permissions db
    ∧ res ∈ resources db ∧ Resource.id res = Permission.resource p
    ∧ Resource.name res = name ∧ Permission.level p = level.

(** ** Operations and reachable databases *)

(** One call of an operation of the service, from [db] to the database it
    leaves behind (whether it returned or raised).  Registration draws a
    fresh [uuid4] for the profile it inserts. *)
Inductive step (db : DB) : DB → Prop :=
| step_register env validated_data :
    Env.uuid_profile env ∉ (Profile.id <$> profiles db) →
    step db (RegisterSerializer_create env validated_data db).2
| step_profile_create env user :
    step db (Profile_objects_create env user db).2
| step_to_representation context instance :
    step db (to_representation context instance db).2
| step_is_admin request view :
    step db (IsAdmin_has_permission request view db).2
| step_is_normal_user request view :
    step db (IsNormalUser_has_permission request view db).2
| step_add_edge key now follower following :
    step db (AddEdge key now follower following db).2
| step_remove_edge follower following :
    step db (RemoveEdge follower following db).2.

(** The databases the service can be in, starting from the empty one. *)
Inductive reachable : DB → Prop :=
| reachable_empty : reachable empty_db
| reachable_step db db' : reachable db → step db db' → reachable db'.

(** The profile rows of an identity. *)
Definition profiles_of (identity : UUID) (db : DB) : list Profile.t :=
  filter (λ p, Profile.user p = identity) (profiles db).

(** The invariant: every stored identity has exactly one profile row, and
    every profile row belongs to a stored identity. *)
Definition one_profile_each (db : DB) : Prop :=
  (∀ u, u ∈ users db → length (profiles_of (User.id u) db) = 1%nat)
  ∧ (∀ p, p ∈ profiles db → Profile.user p ∈ (User.id <$> users db)).

(** An operation that writes neither [User] nor [Profile]. *)
Definition keeps_identities {A} (m : M A) : Prop :=
  ∀ db, users (m db).2 = users db ∧ profiles (m db).2 = profiles db.

(** ** The visibility rules *)

Inductive Disclosure : Type :=
| Full (data : representation)
| Redacted (reason : string).

(** How a caller reads a representation: the lone ["detail"] entry is the
    redaction, anything else is profile data. *)
Definition disclosure (r : representation) : Disclosure :=
  match r with
  | [(key, VStr reason)] => if bool_decide (key = "detail") then Redacted reason else Full r
  | _ => Full r
  end.

(** All the fields of a profile, as read off a database. *)
Definition full_fields (instance : Profile.t) (db : DB) : representation :=
  ("followers_count",
     VInt (Z.of_nat (length (filter (λ f, Follow.following f = Profile.user instance) (follows db)))))
  :: ("following_count",
     VInt (Z.of_nat (length (filter (λ f, Follow.follower f = Profile.user instance) (follows db)))))
  :: model_fields instance.

(** A follow edge from [a] to [b] is stored. *)
Definition follow_edge (a b : UUID) (db : DB) : Prop :=
  ∃ f, f ∈ follows db ∧ Follow.follower f = a ∧ Follow.following f = b.

#[global] Instance follow_edge_dec a b db : Decision (follow_edge a b db).
Proof.
  destruct (decide (Exists (λ f, Follow.follower f = a ∧ Follow.following f = b)
                           (follows db))) as [H|H].
  - left. apply Exists_exists in H. exact H.
  - right. intros H'. apply H, Exists_exists. exact H'.
Defined.

(** Rules 1 to 3 of [ResolveProfileView] as the specification words them,
    evaluated in order, first match wins: the owner, then the public
    profile, then the stored follow edge.  The reason of a redaction is the
    serializer's message. *)
Definition ResolveProfileView (viewer : UUID) (target : Profile.t) (db : DB) : Disclosure :=
  if bool_decide (viewer = Profile.user target) then Full (full_fields target db)
  else if negb (Profile.is_private target) then Full (full_fields target db)
  else if bool_decide (follow_edge viewer (Profile.user target) db)
       then Full (full_fields target db)
       else Redacted "This profile is private. Follow to view details.".

(** An assignment of the identity to a role of the given name is stored. *)
Definition holds_role (identity : UUID) (name : string) (db : DB) : Prop :=
  ∃ ur, ur ∈ user_roles db ∧ UserRole.user ur = identity
        ∧ ∃ r, r ∈ roles db ∧ Role.id r = UserRole.role ur ∧ Role.name r = name.

#[global] Instance holds_role_dec identity name db : Decision (holds_role identity name db).
Proof.
  destruct (decide (Exists (λ ur, UserRole.user ur = identity
                                  ∧ Exists (λ r, Role.id r = UserRole.role ur ∧ Role.name r = name)
                                           (roles db))
                           (user_roles db))) as [H|H].
  - left. apply Exists_exists in H as (ur & Hur & Hu & Hr).
    apply Exists_exists in Hr. exists ur. auto.
  - right. intros (ur & Hur & Hu & Hr). apply H, Exists_exists.
    exists ur. split; [done|]. split; [done|]. apply Exists_exists, Hr.
Defined.

(** ** Sample data *)

Definition alice_data : ValidatedData.t :=
  ValidatedData.mk "alice" "alice@example.org" "Secret-123" None None None.

Definition bob_data : ValidatedData.t :=
  ValidatedData.mk "bobby" "bob@example.org" "Secret-456" (Some "Bob") (Some "user") None.

Definition alice_env : Env.t := Env.mk 1%N 11%N 21%N 100%N.
Definition bob_env : Env.t := Env.mk 2%N 12%N 22%N 200%N.

(** The database after Alice registered, and after Bob did too. *)
Definition db_alice : DB := (RegisterSerializer_create alice_env alice_data empty_db).2.
Definition db_both : DB := (RegisterSerializer_create bob_env bob_data db_alice).2.

(** Alice's profile as registration made it (public), and switched to private. *)
Definition alice_profile : Profile.t :=
  Profile.mk 11%N 100%N 100%N true 1%N unset None None None false false false
             (VList []) [] [] [] [] [] [] 0.

Definition alice_private : Profile.t :=
  Profile.mk 11%N 100%N 100%N true 1%N unset None (Some "climber") None true false false
             (VList []) [] [] [] [] [] [] 0.

Definition alice : User.t := User.mk 1%N "alice" "alice@example.org" None true false.
Definition bob : User.t := User.mk 2%N "bobby" "bob@example.org" (Some "Bob") true false.

(** Carol asks for a role whose name exceeds the 128 characters of
    [Role.name]: her account and profile are stored before the role insert
    raises, and she is left with no role. *)
Definition carol_data : ValidatedData.t :=
  ValidatedData.mk "carol" "carol@example.org" "Secret-789" None
                   (Some (String.concat "" (replicate 129 "r"))) None.

Definition carol_env : Env.t := Env.mk 3%N 13%N 23%N 300%N.
Definition db_carol : DB := (RegisterSerializer_create carol_env carol_data db_both).2.
Definition carol : User.t := User.mk 3%N "carol" "carol@example.org" None true false.

(** Mallory is a deactivated superuser; Bob's account as it reads once
    deactivated. *)
Definition mallory : User.t := User.mk 9%N "mallory" "mallory@example.org" None false true.
Definition bob_inactive : User.t := User.mk 2%N "bobby" "bob@example.org" (Some "Bob") false false.

(** Reference data: two resources, four permissions, an editor role and a
    restricted role; Dave holds both roles. *)
Definition db_rbac : DB :=
  mkDB [User.mk 4%N "dave" "dave@example.org" None true false] [] []
       [ Resource.mk 1%N "posts" None; Resource.mk 2%N "users" None ]
       [ Permission.mk 1%N 1%N VIEW; Permission.mk 2%N 1%N WRITE;
         Permission.mk 3%N 1%N NONE; Permission.mk 4%N 2%N VIEW ]
       [ Role.mk 51%N 0%N 0%N true "EDITOR" None [1%N; 2%N];
         Role.mk 52%N 0%N 0%N true "RESTRICTED" None [3%N; 4%N] ]
       [ UserRole.mk 1%N 4%N 52%N 0%N; UserRole.mk 2%N 4%N 51%N 0%N ].

Definition as_viewer (u : User.t) : Context.t :=
  Context.mk (Some (Request.mk (UserInstance u) "GET")).

(** ** Characters and patterns *)

(** A character is a code point below 256; the classes are Python's on that
    range. *)
Definition code_point (c : ascii) : N := Ascii.N_of_ascii c.

Definition between (lo hi : N) (c : ascii) : bool :=
  ((lo <=? code_point c) && (code_point c <=? hi))%N.

Definition one_of (codes : list N) (c : ascii) : bool :=
  bool_decide (code_point c ∈ codes).

(** The pattern classes [[A-Z]], [[a-z]] and [\d] (the decimal digits). *)
Definition upper_case (c : ascii) : bool := between 65 90 c.
Definition lower_case (c : ascii) : bool := between 97 122 c.
Definition decimal (c : ascii) : bool := between 48 57 c.

(** [[A-Za-z0-9_.]]. *)
Definition username_char (c : ascii) : bool :=
  upper_case c || lower_case c || decimal c || one_of [95; 46]%N c.

(** [str.isspace] on one character, which is also the pattern class [\s]:
    the controls 9 to 13 and 28 to 31, the space, NEL and the no-break
    space. *)
Definition isspace (c : ascii) : bool :=
  between 9 13 c || between 28 32 c || one_of [133; 160]%N c.

(** [str.isdigit] on one character: the decimal digits and the superscripts
    one, two and three. *)
Definition isdigit (c : ascii) : bool :=
  decimal c || one_of [178; 179; 185]%N c.

(** [str.isalnum] on one character: letters, digits and the numeric signs of
    the Latin-1 supplement. *)
Definition isalnum (c : ascii) : bool :=
  upper_case c || lower_case c || decimal c
  || one_of [170; 178; 179; 181; 185; 186; 188; 189; 190]%N c
  || between 192 214 c || between 216 246 c || between 248 255 c.

(** The pattern class [\w]. *)
Definition word_char (c : ascii) : bool := isalnum c || one_of [95]%N c.

(** The pattern class [[^\w\s]]. *)
Definition symbol (c : ascii) : bool := negb (word_char c) && negb (isspace c).

(** [re.search] for a pattern that is a single class: some character of the
    string is in the class. *)
Fixpoint search (class : ascii → bool) (s : string) : bool :=
  match s with
  | EmptyString => false
  | String c s' => class c || search class s'
  end.

(** The tail [[A-Za-z0-9_.]*$] of the username pattern: [$] matches at the
    end of the string and also just before a line feed that ends it. *)
Fixpoint username_tail (s : string) : bool :=
  match s with
  | EmptyString => true
  | String c EmptyString => username_char c || one_of [10]%N c
  | String c s' => username_char c && username_tail s'
  end.

(** [re.match(r"^[A-Za-z][A-Za-z0-9_.]*$", value)] found a match. *)
Definition username_pattern (value : string) : bool :=
  match value with
  | EmptyString => false
  | String c s' => (upper_case c || lower_case c) && username_tail s'
  end.

(** [str.isdigit]: every character is a digit and there is at least one. *)
Fixpoint all_digits (s : string) : bool :=
  match s with
  | EmptyString => true
  | String c s' => isdigit c && all_digits s'
  end.

Definition str_isdigit (s : string) : bool :=
  match s with EmptyString => false | _ => all_digits s end.

(** [str.strip]: leading whitespace dropped, then trailing whitespace. *)
Fixpoint lstrip (s : string) : string :=
  match s with
  | EmptyString => EmptyString
  | String c s' => if isspace c then lstrip s' else s
  end.

Fixpoint rstrip (s : string) : string :=
  match s with
  | EmptyString => EmptyString
  | String c s' =>
      match rstrip s' with
      | EmptyString => if isspace c then EmptyString else String c EmptyString
      | kept => String c kept
      end
  end.

Definition strip (s : string) : string := rstrip (lstrip s).

(** ** The field validators of [users/serializers.py] *)

(** What a validator raises: [serializers.ValidationError] with its detail,
    Django's [ValidationError] with the messages of the configured password
    validators, or the [FieldError] of a query on a keyword that is no field
    of the model. *)
Inductive raised : Type :=
| serializers_ValidationError (detail : string)
| django_ValidationError (messages : list string)
| FieldError (keyword : string).

Inductive outcome (A : Type) : Type :=
| Return (a : A)
| Throw (e : raised).
Arguments Return {A} a.
Arguments Throw {A} e.

(** [RegisterSerializer.validate_username]. *)
Definition validate_username (value : string) (db : DB) : outcome string :=
  if (String.length value <? 4)%nat then
    Throw (serializers_ValidationError "Username must be at least 4 characters.")
  else if negb (username_pattern value) then
    Throw (serializers_ValidationError
      "Username must start with a letter and contain only letters, numbers, _ or .")
  else if exists_ (filter (λ u, User.username u = value) (users db)) then
    Throw (serializers_ValidationError "Username already exists.")
  else Return value.

(** [User.objects.filter(mobile_number=value).exists()]: [User] has no
    field of that name (nor has [AbstractUser]), and the query set raises
    when the keyword is resolved. *)
Definition User_filter_mobile_number_exists (value : string) (db : DB) : outcome bool :=
  Throw (FieldError "mobile_number").

(** [RegisterSerializer.validate_mobile_number]. *)
Definition validate_mobile_number (value : string) (db : DB) : outcome string :=
  if negb (str_isdigit value) then
    Throw (serializers_ValidationError "Mobile number must contain only digits")
  else if (String.length value <? 10)%nat then
    Throw (serializers_ValidationError "Invalid mobile number")
  else
    match User_filter_mobile_number_exists value db with
    | Throw e => Throw e
    | Return true => Throw (serializers_ValidationError "Mobile number already registered")
    | Return false => Return value
    end.

(** [RegisterSerializer.validate_password].  Its last step calls Django's
    [validate_password], which runs the validators configured in the
    settings; these are outside the sources, and [password_validators]
    stands for them: the messages they produce for a password, none when
    they all pass. *)
Definition validate_password (password_validators : string → list string)
    (value : string) : outcome string :=
  if (String.length value <? 8)%nat then
    Throw (serializers_ValidationError "Password must be at least 8 characters.")
  else if negb (search upper_case value) then
    Throw (serializers_ValidationError "Password must contain an uppercase letter.")
  else if negb (search lower_case value) then
    Throw (serializers_ValidationError "Password must contain a lowercase letter.")
  else if negb (search decimal value) then
    Throw (serializers_ValidationError "Password must contain a number.")
  else if negb (search symbol value) then
    Throw (serializers_ValidationError "Password must contain a symbol.")
  else
    match password_validators value with
    | [] => Return value
    | messages => Throw (django_ValidationError messages)
    end.

(** [LoginSerializer.validate_identifier]. *)
Definition validate_identifier (value : string) : outcome string :=
  let value := strip value in
  if (String.length value <? 3)%nat then
    Throw (serializers_ValidationError "Invalid login identifier")
  else Return value.

(** ** The constraints the models declare *)

Definition follow_pair (f : Follow.t) : UUID * UUID :=
  (Follow.follower f, Follow.following f).

Definition user_role_pair (ur : UserRole.t) : UUID * UUID :=
  (UserRole.user ur, UserRole.role ur).

(** Primary keys, [unique=True] columns, the one-to-one column,
    [unique_together] pairs and foreign keys of the tables the code writes. *)
Record schema (db : DB) : Prop := mk_schema {
  user_id_unique : NoDup (User.id <$> users db);
  username_unique : NoDup (User.username <$> users db);
  email_unique : NoDup (User.email <$> users db);
  profile_id_unique : NoDup (Profile.id <$> profiles db);
  profile_user_unique : NoDup (Profile.user <$> profiles db);
  profile_user_stored : ∀ p, p ∈ profiles db → Profile.user p ∈ (User.id <$> users db);
  role_id_unique : NoDup (Role.id <$> roles db);
  role_name_unique : NoDup (Role.name <$> roles db);
  user_role_unique : NoDup (user_role_pair <$> user_roles db);
  user_role_stored : ∀ ur, ur ∈ user_roles db →
    UserRole.user ur ∈ (User.id <$> users db) ∧ UserRole.role ur ∈ (Role.id <$> roles db);
  follow_id_unique : NoDup (Follow.id <$> follows db);
  follow_pair_unique : NoDup (follow_pair <$> follows db);
  follow_ends_stored : ∀ f, f ∈ follows db →
    Follow.follower f ∈ (User.id <$> users db) ∧ Follow.following f ∈ (User.id <$> users db)
}.


(** An operation that keeps a property of the database, whether it returns
    or raises. *)
Definition preserves {A} (P : DB → Prop) (m : M A) : Prop :=
  ∀ db, P db → P (m db).2.

(** The characters of a string. *)
Definition chars (s : string) : list ascii := String.list_ascii_of_string s.

(** Every character of the string is in the class. *)
Definition every (class : ascii → bool) (s : string) : Prop :=
  ∀ c, c ∈ chars s → class c = true.

(** The profile row [Profile.objects.create] builds. *)
Definition new_profile (env : Env.t) (user : UUID) : Profile.t :=
  Profile.mk (Env.uuid_profile env) (Env.now env) (Env.now env) true
             user unset None None None false false false
             (VList []) [] [] [] [] [] [] 0.

(** The account [create_user] builds. *)
Definition new_user (env : Env.t) (validated_data : ValidatedData.t) : User.t :=
  User.mk (Env.uuid_user env)
          (ValidatedData.username validated_data)
          (ValidatedData.email validated_data)
          (ValidatedData.display_name validated_data)
          true false.

(** The role name a registration asks for. *)
Definition requested_role (validated_data : ValidatedData.t) : string :=
  upper (default "user" (ValidatedData.role validated_data)).

(** The row [UserRole.objects.create] builds for the new account and a
    role. *)
Definition assignment (env : Env.t) (role : Role.t) (db : DB) : UserRole.t :=
  UserRole.mk (next_id (UserRole.id <$> user_roles db))
              (Env.uuid_user env) (Role.id role) (Env.now env).

(** The role [get_or_create] inserts when none of the name is stored. *)
Definition new_role (env : Env.t) (name : string) : Role.t :=
  Role.mk (Env.uuid_role env) (Env.now env) (Env.now env) true name None [].

(** Erin asks for the role ["admin"]. *)
Definition erin_data : ValidatedData.t :=
  ValidatedData.mk "erin.k" "erin@example.org" "Secret-012" None (Some "admin") None.

Definition erin_env : Env.t := Env.mk 5%N 15%N 25%N 500%N.
Definition erin : User.t := User.mk 5%N "erin.k" "erin@example.org" None true false.
Definition db_erin : DB := (RegisterSerializer_create erin_env erin_data db_both).2.

(** The line feed, as a string. *)
Definition line_feed : string := String "010"%char EmptyString.

(** A letter, then letters, digits, underscores and dots, then possibly one
    line feed. *)
Definition username_shaped (value : string) : Prop :=
  ∃ c body,
    (upper_case c || lower_case c) = true
    ∧ every username_char body
    ∧ (value = String c body ∨ value = String c (body +:+ line_feed)).

(** The database after Bob followed Alice. *)
Definition db_followed : DB := (AddEdge 31%N 300%N 2%N 1%N db_both).2.

(** * Properties *)

(** ** Queries *)

Lemma exists_filter {A} (P : A → Prop) `{!∀ x, Decision (P x)} (l : list A) :
  exists_ (filter P l) = true ↔ ∃ x, x ∈ l ∧ P x.
Proof.
  destruct (filter P l) as [|y l'] eqn:E; simpl.
  - split; [done|]. intros (x & Hx & HP).
    assert (x ∈ filter P l) as Hin by (apply list_elem_of_filter; done).
    rewrite E in Hin. by apply elem_of_nil in Hin.
  - split; [|done]. intros _.
    assert (y ∈ filter P l) as Hin by (rewrite E; left).
    apply list_elem_of_filter in Hin as [HP Hy]. eauto.
Qed.

Lemma exists_filter_false {A} (P : A → Prop) `{!∀ x, Decision (P x)} (l : list A) :
  exists_ (filter P l) = false ↔ ∀ x, x ∈ l → ¬ P x.
Proof.
  rewrite <- not_true_iff_false, exists_filter. split.
  - intros Hnone x Hx HP. apply Hnone. eauto.
  - intros Hall (x & Hx & HP). exact (Hall x Hx HP).
Qed.

Lemma filter_nil_iff {A} (P : A → Prop) `{!∀ x, Decision (P x)} (l : list A) :
  filter P l = [] ↔ ∀ x, x ∈ l → ¬ P x.
Proof.
  split.
  - intros E x Hx HP.
    assert (x ∈ filter P l) as Hin by (by apply list_elem_of_filter).
    rewrite E in Hin. by apply elem_of_nil in Hin.
  - intros Hnone. destruct (filter P l) as [|y l'] eqn:E; [done|].
    assert (y ∈ filter P l) as Hin by (rewrite E; left).
    apply list_elem_of_filter in Hin as [HP Hy]. by destruct (Hnone y Hy).
Qed.

Lemma IsFollowing_edge a b db :
  IsFollowing a b db = bool_decide (follow_edge a b db).
Proof.
  unfold IsFollowing.
  destruct (bool_decide (follow_edge a b db)) eqn:E.
  - apply bool_decide_eq_true in E as (f & Hf & Hab).
    apply exists_filter. eauto.
  - apply bool_decide_eq_false in E. apply exists_filter_false.
    intros f Hf Hab. apply E. exists f. tauto.
Qed.

Lemma super_to_representation_run instance db :
  super_to_representation instance db = (Ok (full_fields instance db), db).
Proof. reflexivity. Qed.

Lemma disclosure_full_fields instance db :
  disclosure (full_fields instance db) = Full (full_fields instance db).
Proof. reflexivity. Qed.

(** ** The privacy gate *)

(** What [to_representation] does for an authenticated viewer, case by case. *)
Lemma to_representation_viewer viewer method instance db :
  to_representation (Context.mk (Some (Request.mk (UserInstance viewer) method))) instance db
  = if Profile.is_private instance
       && negb (bool_decide (User.id viewer = Profile.user instance))
       && negb (IsFollowing (User.id viewer) (Profile.user instance) db)
    then (Ok private_detail, db)
    else (Ok (full_fields instance db), db).
Proof.
  unfold to_representation; simpl.
  destruct (Profile.is_private instance); simpl; [|done].
  destruct (bool_decide (User.id viewer = Profile.user instance)); simpl; [done|].
  unfold bind, gets.
  destruct (IsFollowing (User.id viewer) (Profile.user instance) db); done.
Qed.

(** C1: [ResolveProfileView] evaluates its rules in order, first match wins.
    For every authenticated viewer and every target profile the serializer
    returns a result, and read as a disclosure it is the one the three rules
    give: [Full] for the owner; otherwise [Full] for a public profile;
    otherwise [Full] exactly when a follow edge from the viewer to the owner
    is stored, and [Redacted] when none is. *)
Theorem ResolveProfileView_first_match_wins
    (viewer : User.t) (method : string) (target : Profile.t) (db : DB) :
  result_map disclosure
    (to_representation (Context.mk (Some (Request.mk (UserInstance viewer) method)))
                       target db).1
  = Ok (ResolveProfileView (User.id viewer) target db).
Proof.
  rewrite to_representation_viewer, IsFollowing_edge.
  unfold ResolveProfileView.
  destruct (Profile.is_private target); simpl.
  - destruct (bool_decide (User.id viewer = Profile.user target)); simpl; [done|].
    destruct (bool_decide (follow_edge _ _ _)); done.
  - destruct (bool_decide (User.id viewer = Profile.user target)); done.
Qed.

(** C10: without a request in the serializer context the privacy gate is
    skipped: every profile, private ones included and whatever the follow
    table holds, is returned with all its fields. *)
Theorem to_representation_without_request (instance : Profile.t) (db : DB) :
  to_representation (Context.mk None) instance db = (Ok (full_fields instance db), db)
  ∧ disclosure (full_fields instance db) = Full (full_fields instance db).
Proof. split; reflexivity. Qed.

(** Every redacted result is the lone ["detail"] entry. *)
Lemma redacted_is_private_detail context instance db r reason :
  (to_representation context instance db).1 = Ok r →
  disclosure r = Redacted reason →
  r = private_detail.
Proof.
  destruct context as [[[user method]|]].
  - destruct user as [|viewer].
    + unfold to_representation; simpl.
      destruct (Profile.is_private instance); simpl.
      * discriminate.
      * intros [= <-]. discriminate.
    + rewrite to_representation_viewer.
      destruct (_ && _); simpl; intros [= <-]; [done|discriminate].
  - simpl. intros [= <-]. discriminate.
Qed.

(** C5: a redacted result exposes the reason string and nothing else.  For
    two private profiles of one owner, and a viewer who is neither the owner
    nor a follower, the two results are the same lone ["detail"] entry,
    whatever else differs in the profiles or in the databases they are read
    from; and every result that reads as [Redacted] is that entry. *)
Theorem redacted_exposes_only_the_reason
    (viewer : User.t) (method : string) (p1 p2 : Profile.t) (db1 db2 : DB) :
  let context := Context.mk (Some (Request.mk (UserInstance viewer) method)) in
  Profile.user p1 = Profile.user p2 →
  Profile.is_private p1 = true →
  Profile.is_private p2 = true →
  User.id viewer ≠ Profile.user p1 →
  ¬ follow_edge (User.id viewer) (Profile.user p1) db1 →
  ¬ follow_edge (User.id viewer) (Profile.user p1) db2 →
  (to_representation context p1 db1).1 = Ok private_detail
  ∧ (to_representation context p2 db2).1 = (to_representation context p1 db1).1
  ∧ (∀ c p db r reason,
       (to_representation c p db).1 = Ok r → disclosure r = Redacted reason →
       r = [("detail", VStr reason)]
       ∧ reason = "This profile is private. Follow to view details.").
Proof.
  intros context Huser Hp1 Hp2 Hne Hno1 Hno2. subst context.
  rewrite !to_representation_viewer, !IsFollowing_edge, <- Huser, Hp1, Hp2.
  rewrite (bool_decide_eq_false_2 _ Hne).
  rewrite (bool_decide_eq_false_2 _ Hno1), (bool_decide_eq_false_2 _ Hno2).
  simpl. split; [done|]. split; [done|].
  intros c p db r reason Hr Hd.
  pose proof (redacted_is_private_detail _ _ _ _ _ Hr Hd) as ->.
  simpl in Hd. by injection Hd as <-.
Qed.

Lemma no_edge_in_sample_data a b :
  ¬ follow_edge a b db_both ∧ ¬ follow_edge a b db_alice.
Proof.
  split; intros (f & Hf & _); vm_compute in Hf; by apply elem_of_nil in Hf.
Qed.

Lemma redacted_exposes_only_the_reason_witness :
  (to_representation (as_viewer bob) alice_private db_both).1 = Ok private_detail
  ∧ (to_representation (as_viewer bob) alice_private db_alice).1
    = (to_representation (as_viewer bob) alice_private db_both).1.
Proof.
  assert (User.id bob ≠ Profile.user alice_private) as Hne by (vm_compute; discriminate).
  destruct (redacted_exposes_only_the_reason bob "GET" alice_private alice_private
              db_both db_alice eq_refl eq_refl eq_refl Hne
              (proj1 (no_edge_in_sample_data _ _)) (proj2 (no_edge_in_sample_data _ _)))
    as (H1 & H2 & _).
  split; [exact H1|exact H2].
Defined.

Lemma to_representation_reads_only context instance db :
  (to_representation context instance db).2 = db.
Proof.
  destruct context as [[[user method]|]]; [|done].
  destruct user as [|viewer].
  - unfold to_representation; simpl. by destruct (Profile.is_private instance).
  - rewrite to_representation_viewer. by destruct (_ && _).
Qed.

(** C4 (as the code has it): a call of [to_representation] writes nothing.
    In every outcome, a full disclosure to a non-owner included, the
    database it leaves is the one it found, so the view counter and every
    other profile field are unchanged. *)
Theorem to_representation_writes_nothing
    (context : Context.t) (instance : Profile.t) (db : DB) :
  (to_representation context instance db).2 = db.
Proof. apply to_representation_reads_only. Qed.

(** C4, the claim as worded fails: Bob, who is not the owner, is shown
    Alice's public profile in full, and her view counter still reads 0. *)
Lemma view_counter_not_incremented :
  let run := to_representation (as_viewer bob) alice_profile db_both in
  User.id bob ≠ Profile.user alice_profile
  ∧ result_map disclosure run.1 = Ok (Full (full_fields alice_profile db_both))
  ∧ profiles_of 1%N db_both = [alice_profile]
  ∧ profiles_of 1%N run.2 = [alice_profile]
  ∧ Profile.profile_views <$> profiles_of 1%N run.2
    ≠ (λ p, Profile.profile_views p + 1) <$> profiles_of 1%N db_both.
Proof. vm_compute. repeat split; discriminate. Qed.

(** ** The permission classes *)

Lemma IsAdmin_run request view db :
  IsAdmin_has_permission request view db
  = (Ok (match Request.user request with
         | AnonymousUser => false
         | UserInstance u => User.is_superuser u
         end), db).
Proof. unfold IsAdmin_has_permission. by destruct (Request.user request). Qed.

Lemma IsNormalUser_run request view db :
  IsNormalUser_has_permission request view db
  = (Ok (match Request.user request with
         | AnonymousUser => false
         | UserInstance u => bool_decide (holds_role (User.id u) "USER" db)
         end), db).
Proof.
  unfold IsNormalUser_has_permission.
  destruct (Request.user request) as [|u]; simpl; [done|].
  unfold bind, gets, ret, filter_role__name; simpl. f_equal. f_equal.
  destruct (bool_decide (holds_role (User.id u) "USER" db)) eqn:E.
  - apply bool_decide_eq_true in E as (ur & Hur & Hu & r & Hr & Hid & Hname).
    apply exists_filter. exists ur. split.
    + apply list_elem_of_filter. done.
    + apply Exists_exists. eauto.
  - apply bool_decide_eq_false in E. apply exists_filter_false.
    intros ur Hur Hrole. apply E.
    apply list_elem_of_filter in Hur as [Hu Hur].
    apply Exists_exists in Hrole as (r & Hr & Hid & Hname).
    exists ur. eauto 10.
Qed.

(** C2 (as the code has it): the permission checks fail closed on missing
    data and never raise.  An anonymous caller is denied by both; for a
    [User] instance [IsAdmin] decides by the superuser flag alone and
    [IsNormalUser] allows exactly when an assignment to a role named
    ["USER"] is stored, so a missing role or assignment is a denial.  The
    account's [is_active] flag occurs in neither decision. *)
Theorem permission_checks_fail_closed (request : Request.t) (view : APIView) (db : DB) :
  IsAdmin_has_permission request view db
  = (Ok (match Request.user request with
         | AnonymousUser => false
         | UserInstance u => User.is_superuser u
         end), db)
  ∧ IsNormalUser_has_permission request view db
  = (Ok (match Request.user request with
         | AnonymousUser => false
         | UserInstance u => bool_decide (holds_role (User.id u) "USER" db)
         end), db).
Proof. split; [apply IsAdmin_run | apply IsNormalUser_run]. Qed.

(** C2, the claim as worded fails for inactive identities: a deactivated
    superuser passes [IsAdmin], and a deactivated account that still holds
    the ["USER"] role passes [IsNormalUser]. *)
Lemma inactive_identity_is_allowed :
  User.is_active mallory = false
  ∧ (IsAdmin_has_permission (Request.mk (UserInstance mallory) "GET") "profile" db_both).1
    = Ok true
  ∧ User.is_active bob_inactive = false
  ∧ (IsNormalUser_has_permission (Request.mk (UserInstance bob_inactive) "GET")
                                 "profile" db_both).1
    = Ok true.
Proof. vm_compute. done. Qed.

(** C8: an identity with no role assignments is denied by the role check,
    for every view it is asked about and every request it comes with. *)
Theorem IsNormalUser_denies_without_roles
    (request : Request.t) (view : APIView) (db : DB) :
  (∀ u ur, Request.user request = UserInstance u →
           ur ∈ user_roles db → UserRole.user ur ≠ User.id u) →
  IsNormalUser_has_permission request view db = (Ok false, db).
Proof.
  intros Hnone. rewrite IsNormalUser_run.
  destruct (Request.user request) as [|u]; [done|].
  rewrite bool_decide_eq_false_2; [done|].
  intros (ur & Hur & Hu & _). by apply (Hnone u ur).
Qed.

Lemma IsNormalUser_denies_without_roles_witness :
  carol ∈ users db_carol
  ∧ IsNormalUser_has_permission (Request.mk (UserInstance carol) "POST") "profile" db_carol
    = (Ok false, db_carol).
Proof.
  split.
  - vm_compute. do 2 right. left.
  - apply IsNormalUser_denies_without_roles.
    intros u ur [= <-] Hur. vm_compute in Hur.
    repeat (apply elem_of_cons in Hur as [->|Hur]; [vm_compute; discriminate|]).
    by apply elem_of_nil in Hur.
Defined.

(** ** The follow graph *)

Lemma user_exists a db :
  a ∈ (User.id <$> users db) →
  exists_ (filter (λ u, User.id u = a) (users db)) = true.
Proof.
  intros (u & -> & Hu)%list_elem_of_fmap. apply exists_filter. eauto.
Qed.

Lemma follow_key_fresh key db :
  key ∉ (Follow.id <$> follows db) →
  exists_ (filter (λ f, Follow.id f = key) (follows db)) = false.
Proof.
  intros Hfresh. apply exists_filter_false. intros f Hf <-.
  apply Hfresh, list_elem_of_fmap. eauto.
Qed.

Lemma filter_keeps_all {A} (P : A → Prop) `{!∀ x, Decision (P x)} (l : list A) :
  (∀ x, x ∈ l → P x) → filter P l = l.
Proof.
  induction l as [|x l IH]; intros Hall; [done|].
  rewrite filter_cons_True by (apply Hall; left).
  f_equal. apply IH. intros y Hy. apply Hall. by right.
Qed.

(** What an insert into [Follow] does, for stored endpoints and a fresh key. *)
Lemma AddEdge_run key now a b db :
  a ∈ (User.id <$> users db) →
  b ∈ (User.id <$> users db) →
  key ∉ (Follow.id <$> follows db) →
  AddEdge key now a b db
  = if bool_decide (follow_edge a b db)
    then (Raise IntegrityError, db)
    else (Ok tt, with_follows (λ t, t ++ [Follow.mk key now now true a b]) db).
Proof.
  intros Ha Hb Hkey.
  unfold AddEdge, Follow_objects_create, bind, gets.
  rewrite (user_exists _ _ Ha), (user_exists _ _ Hb), (follow_key_fresh _ _ Hkey).
  rewrite IsFollowing_edge. simpl. rewrite !orb_false_r.
  by destruct (bool_decide (follow_edge a b db)).
Qed.

(** A second insert of a stored pair is refused, whatever key it draws. *)
Lemma AddEdge_duplicate key now a b db :
  follow_edge a b db →
  AddEdge key now a b db = (Raise IntegrityError, db).
Proof.
  intros Hedge. unfold AddEdge, Follow_objects_create, bind, gets.
  rewrite IsFollowing_edge, (bool_decide_eq_true_2 _ Hedge).
  by rewrite orb_true_r.
Qed.

Lemma follow_edge_added key now a b db :
  follow_edge a b (with_follows (λ t, t ++ [Follow.mk key now now true a b]) db).
Proof.
  exists (Follow.mk key now now true a b). split; [|done].
  simpl. apply elem_of_app. right. left.
Qed.

(** Removing the pair just inserted gives back the database before it. *)
Lemma RemoveEdge_after_insert key now a b db :
  ¬ follow_edge a b db →
  RemoveEdge a b (with_follows (λ t, t ++ [Follow.mk key now now true a b]) db)
  = (Ok tt, db).
Proof.
  intros Hno. unfold RemoveEdge, modify. f_equal.
  destruct db as [us ps fs rs pms rls urs]; unfold with_follows; simpl in *.
  f_equal. rewrite filter_app, filter_keeps_all.
  - rewrite filter_cons_False by (simpl; tauto). apply app_nil_r.
  - intros f Hf Hab. apply Hno. exists f. simpl. tauto.
Qed.

(** C3 (as the code has it): [AddEdge(a, a)] is treated like any other
    pair.  The [Follow] model constrains the keys and the uniqueness of the
    pair only, so for a stored identity [a] the edge from [a] to [a] is
    inserted when it is not yet stored, and refused as a duplicate when it
    is. *)
Theorem self_follow_subject_to_uniqueness_only
    (key : UUID) (now : datetime) (a : UUID) (db : DB) :
  a ∈ (User.id <$> users db) →
  key ∉ (Follow.id <$> follows db) →
  (¬ follow_edge a a db →
     (AddEdge key now a a db).1 = Ok tt ∧ follow_edge a a (AddEdge key now a a db).2)
  ∧ (follow_edge a a db →
     AddEdge key now a a db = (Raise IntegrityError, db)).
Proof.
  intros Ha Hkey. rewrite (AddEdge_run _ _ _ _ _ Ha Ha Hkey). split; intros Hedge.
  - rewrite (bool_decide_eq_false_2 _ Hedge). simpl.
    split; [done|apply follow_edge_added].
  - by rewrite (bool_decide_eq_true_2 _ Hedge).
Qed.

Lemma self_follow_subject_to_uniqueness_only_witness :
  (AddEdge 31%N 300%N 1%N 1%N db_both).1 = Ok tt
  ∧ follow_edge 1%N 1%N (AddEdge 31%N 300%N 1%N 1%N db_both).2.
Proof.
  apply (self_follow_subject_to_uniqueness_only 31%N 300%N 1%N db_both).
  - vm_compute. left.
  - vm_compute. intros H. by apply elem_of_nil in H.
  - apply no_edge_in_sample_data.
Defined.

(** C3, the claim as worded fails: Alice following herself is accepted, and
    the stored edge has equal endpoints. *)
Lemma self_follow_edge_is_created :
  (AddEdge 31%N 300%N 1%N 1%N db_both).1 = Ok tt
  ∧ ∃ f, f ∈ follows (AddEdge 31%N 300%N 1%N 1%N db_both).2
         ∧ Follow.follower f = Follow.following f.
Proof.
  split; [by vm_compute|].
  exists (Follow.mk 31%N 300%N 300%N true 1%N 1%N). split; [|done].
  vm_compute. left.
Qed.

(** C7: for stored identities [a] and [b] (distinct or not) with no edge
    between them, [AddEdge(a, b)] succeeds; an immediately repeated
    [AddEdge(a, b)] is refused as a duplicate and changes nothing; and after
    [RemoveEdge(a, b)], which restores the database, [AddEdge(a, b)]
    succeeds again. *)
Theorem AddEdge_duplicate_then_remove_then_add
    (k1 k2 k3 : UUID) (t1 t2 t3 : datetime) (a b : UUID) (db : DB) :
  a ∈ (User.id <$> users db) →
  b ∈ (User.id <$> users db) →
  ¬ follow_edge a b db →
  k1 ∉ (Follow.id <$> follows db) →
  k3 ∉ (Follow.id <$> follows db) →
  let first := AddEdge k1 t1 a b db in
  let second := AddEdge k2 t2 a b first.2 in
  let removed := RemoveEdge a b second.2 in
  let third := AddEdge k3 t3 a b removed.2 in
  first.1 = Ok tt ∧ follow_edge a b first.2
  ∧ second = (Raise IntegrityError, first.2)
  ∧ removed = (Ok tt, db)
  ∧ third.1 = Ok tt ∧ follow_edge a b third.2.
Proof.
  intros Ha Hb Hno Hk1 Hk3; cbv zeta.
  rewrite (AddEdge_run k1 _ _ _ _ Ha Hb Hk1), (bool_decide_eq_false_2 _ Hno); cbn [fst snd].
  rewrite (AddEdge_duplicate k2 t2 a b _ (follow_edge_added k1 t1 a b db)); cbn [fst snd].
  rewrite (RemoveEdge_after_insert _ _ _ _ _ Hno); cbn [fst snd].
  rewrite (AddEdge_run k3 _ _ _ _ Ha Hb Hk3), (bool_decide_eq_false_2 _ Hno); cbn [fst snd].
  repeat split; apply follow_edge_added.
Qed.

Lemma AddEdge_duplicate_then_remove_then_add_witness :
  (AddEdge 31%N 300%N 2%N 1%N db_both).1 = Ok tt
  ∧ AddEdge 32%N 301%N 2%N 1%N (AddEdge 31%N 300%N 2%N 1%N db_both).2
    = (Raise IntegrityError, (AddEdge 31%N 300%N 2%N 1%N db_both).2).
Proof.
  assert (∀ k : UUID, k ∉ (Follow.id <$> follows db_both)) as Hfresh
    by (intros k H; vm_compute in H; by apply elem_of_nil in H).
  destruct (AddEdge_duplicate_then_remove_then_add 31%N 32%N 33%N 300%N 301%N 302%N
              2%N 1%N db_both) as (H1 & _ & H2 & _).
  - vm_compute. right. left.
  - vm_compute. left.
  - apply no_edge_in_sample_data.
  - apply Hfresh.
  - apply Hfresh.
  - split; [exact H1|exact H2].
Defined.

(** The visibility scenario: a viewer without an edge to the owner of a
    private profile is shown the redaction, and the full profile once the
    insert of the edge has succeeded. *)
Lemma follower_sees_private_profile key now viewer method target db :
  let context := Context.mk (Some (Request.mk (UserInstance viewer) method)) in
  let db' := (AddEdge key now (User.id viewer) (Profile.user target) db).2 in
  User.id viewer ∈ (User.id <$> users db) →
  Profile.user target ∈ (User.id <$> users db) →
  key ∉ (Follow.id <$> follows db) →
  Profile.is_private target = true →
  User.id viewer ≠ Profile.user target →
  ¬ follow_edge (User.id viewer) (Profile.user target) db →
  (to_representation context target db).1 = Ok private_detail
  ∧ (to_representation context target db').1 = Ok (full_fields target db').
Proof.
  intros context db' Hv Ho Hkey Hprivate Hne Hno. subst context db'.
  rewrite (AddEdge_run _ _ _ _ _ Hv Ho Hkey), (bool_decide_eq_false_2 _ Hno).
  rewrite !to_representation_viewer, !IsFollowing_edge, Hprivate.
  rewrite (bool_decide_eq_false_2 _ Hne), (bool_decide_eq_false_2 _ Hno).
  cbn [fst snd].
  by rewrite (bool_decide_eq_true_2 _ (follow_edge_added key now _ _ db)).
Qed.

(** ** Role resolution *)

Lemma level_rank_values :
  level_rank <$> [NONE; VIEW; WRITE; FULL] = [0; 1; 2; 3]%nat.
Proof. reflexivity. Qed.

Lemma level_max_cases a b :
  (level_max a b = a ∧ level_rank b ≤ level_rank a)%nat
  ∨ (level_max a b = b ∧ level_rank a ≤ level_rank b)%nat.
Proof.
  unfold level_max. destruct (Nat.ltb_spec (level_rank a) (level_rank b)); [right|left]; (split; [done|lia]).
Qed.

Lemma grants_granted identity db name level :
  (name, level) ∈ grants identity db ↔ granted identity db name level.
Proof.
  unfold grants, assigned_roles, role_grants, granted. split.
  - intros (role & Hgrant & Hrole)%list_elem_of_bind.
    apply list_elem_of_bind in Hrole as (ur & Hrole & Hur).
    apply list_elem_of_filter in Hur as [Hu Hur].
    apply list_elem_of_filter in Hrole as [Hid Hrole].
    apply list_elem_of_bind in Hgrant as (key & Hgrant & Hkey).
    apply list_elem_of_bind in Hgrant as (p & Hgrant & Hp).
    apply list_elem_of_filter in Hp as [<- Hp].
    apply list_elem_of_bind in Hgrant as (res & Hgrant & Hres).
    apply list_elem_of_filter in Hres as [Hrid Hres].
    apply list_elem_of_singleton in Hgrant as [= -> ->].
    exists ur, role, p, res. done.
  - intros (ur & role & p & res & Hur & Hu & Hrole & Hid & Hkey & Hp & Hres & Hrid & <- & <-).
    apply list_elem_of_bind. exists role. split.
    + apply list_elem_of_bind. exists (Permission.id p). split; [|done].
      apply list_elem_of_bind. exists p. split; [|by apply list_elem_of_filter].
      apply list_elem_of_bind. exists res. split; [|by apply list_elem_of_filter].
      apply list_elem_of_singleton. done.
    + apply list_elem_of_bind. exists ur.
      split; by apply list_elem_of_filter.
Qed.

(** The running table holds, for each name, the highest level in the list. *)
Lemma foldr_take_max (gs : list (string * AccessLevel)) (name : string) :
  match foldr take_max ∅ gs !! name with
  | Some level =>
      (name, level) ∈ gs
      ∧ ∀ level', (name, level') ∈ gs → (level_rank level' ≤ level_rank level)%nat
  | None => ∀ level, (name, level) ∉ gs
  end.
Proof.
  induction gs as [|[n l] gs IH]; simpl.
  - rewrite lookup_empty. intros level H. by apply elem_of_nil in H.
  - unfold take_max at 1; simpl.
    destruct (decide (n = name)) as [->|Hne].
    + rewrite lookup_insert_eq.
      destruct (foldr take_max ∅ gs !! name) as [held|] eqn:E.
      * destruct IH as [Hin Hmax].
        destruct (level_max_cases l held) as [[-> Hle]|[-> Hle]].
        -- split; [left|]. intros l' [[= ->]|Hl']%elem_of_cons; [done|].
           specialize (Hmax l' Hl'). lia.
        -- split; [by right|]. intros l' [[= ->]|Hl']%elem_of_cons; [done|].
           by apply Hmax.
      * split; [left|]. intros l' [[= ->]|Hl']%elem_of_cons; [done|].
        by apply IH in Hl'.
    + rewrite lookup_insert_ne by done.
      destruct (foldr take_max ∅ gs !! name) as [held|] eqn:E.
      * destruct IH as [Hin Hmax]. split; [by right|].
        intros l' [[= ? ?]|Hl']%elem_of_cons; [congruence|]. by apply Hmax.
      * intros level [[= ? ?]|Hl']%elem_of_cons; [congruence|]. by apply IH in Hl'.
Qed.

(** C6: union-then-max.  For every identity, every database of role
    assignments and every resource name, [Resolve] has an entry for the name
    exactly when some role of the identity carries a permission on it, and
    the entry is then the maximum, under NONE < VIEW < WRITE < FULL, of the
    levels those roles carry for it: it is one of them and none of them
    outranks it, a NONE grant included, so nothing overrides a grant. *)
Theorem Resolve_union_then_max (identity : UUID) (db : DB) (name : string) :
  level_rank <$> [NONE; VIEW; WRITE; FULL] = [0; 1; 2; 3]%nat
  ∧ match Resolve identity db !! name with
    | Some level =>
        granted identity db name level
        ∧ ∀ level', granted identity db name level' →
                    (level_rank level' ≤ level_rank level)%nat
    | None => ∀ level, ¬ granted identity db name level
    end.
Proof.
  split; [reflexivity|].
  pose proof (foldr_take_max (grants identity db) name) as H.
  unfold Resolve. destruct (foldr take_max ∅ (grants identity db) !! name) as [level|].
  - destruct H as [Hin Hmax]. split; [by apply grants_granted|].
    intros level' Hg. by apply Hmax, grants_granted.
  - intros level Hg. by apply (H level), grants_granted.
Qed.

(** Dave's two roles grant VIEW, WRITE and NONE on posts and VIEW on users. *)
Example Resolve_dave :
  Resolve 4%N db_rbac !! "posts" = Some WRITE
  ∧ Resolve 4%N db_rbac !! "users" = Some VIEW
  ∧ Resolve 4%N db_rbac !! "reels" = None
  ∧ Resolve 1%N db_rbac = ∅.
Proof. repeat split; by vm_compute. Qed.

(** ** Running a sequence *)

Lemma bind_Ok {A B} (m : M A) (k : A → M B) db a db' :
  m db = (Ok a, db') → bind m k db = k a db'.
Proof. unfold bind. by intros ->. Qed.

Lemma bind_Raise {A B} (m : M A) (k : A → M B) db e db' :
  m db = (Raise e, db') → bind m k db = (Raise e, db').
Proof. unfold bind. by intros ->. Qed.

(** ** One profile per identity *)

Lemma create_user_effect env validated_data db :
  (∃ e, create_user env validated_data db = (Raise e, db))
  ∨ (∃ user,
       create_user env validated_data db = (Ok user, with_users (λ t, t ++ [user]) db)
       ∧ User.id user = Env.uuid_user env
       ∧ (Env.uuid_user env ∉ (User.id <$> users db))).
Proof.
  unfold create_user.
  case_bool_decide; [left; by eexists|].
  destruct (ValidatedData.mobile_number validated_data); [left; by eexists|].
  destruct (_ || _); [left; by eexists|].
  unfold bind, gets; simpl.
  match goal with |- context [exists_ ?l] => destruct (exists_ l) eqn:E end.
  - left. by eexists.
  - right. eexists. split; [reflexivity|]. split; [done|].
    intros (u & Hid & Hu)%list_elem_of_fmap.
    eapply exists_filter_false in E; [|exact Hu]. apply E. left. by rewrite Hid.
Qed.

Lemma Profile_objects_create_effect env user db :
  Profile_objects_create env user db = (Raise IntegrityError, db)
  ∨ (∃ profile,
       Profile_objects_create env user db
       = (Ok profile, with_profiles (λ t, t ++ [profile]) db)
       ∧ Profile.user profile = user
       ∧ profiles_of user db = []
       ∧ user ∈ (User.id <$> users db)).
Proof.
  unfold Profile_objects_create, bind, gets; simpl.
  match goal with |- context [exists_ ?l || _] => destruct (exists_ l) eqn:E end;
    simpl; [left; reflexivity|].
  match goal with |- context [negb (exists_ ?l)] => destruct (exists_ l) eqn:E' end;
    simpl; [|left; reflexivity].
  right. eexists. split; [reflexivity|]. split; [done|]. split.
  - apply filter_nil_iff. intros p Hp Hu.
    eapply exists_filter_false in E; [|exact Hp]. destruct E. by right.
  - apply exists_filter in E' as (u & Hu & <-). by apply list_elem_of_fmap_2.
Qed.

Lemma Profile_objects_create_succeeds env user db :
  Env.uuid_profile env ∉ (Profile.id <$> profiles db) →
  user ∈ (User.id <$> users db) →
  profiles_of user db = [] →
  ∃ profile,
    Profile_objects_create env user db
    = (Ok profile, with_profiles (λ t, t ++ [profile]) db)
    ∧ Profile.user profile = user.
Proof.
  intros Hkey Huser Hnone.
  unfold Profile_objects_create, bind, gets; simpl.
  rewrite (user_exists _ _ Huser); simpl.
  match goal with |- context [exists_ ?l] => destruct (exists_ l) eqn:E end; simpl.
  - apply exists_filter in E as (p & Hp & [Hid|Hu]).
    + destruct Hkey. rewrite <- Hid. by apply list_elem_of_fmap_2.
    + assert (p ∈ profiles_of user db) as Hin by (by apply list_elem_of_filter).
      rewrite Hnone in Hin. by apply elem_of_nil in Hin.
  - eexists. split; [reflexivity|done].
Qed.

Lemma Role_objects_get_or_create_keeps env name :
  keeps_identities (Role_objects_get_or_create env name).
Proof.
  intros db. unfold Role_objects_get_or_create, bind, gets; simpl.
  destruct (filter _ (roles db)) as [|r [|r' rs]]; simpl; [|done|done].
  destruct (too_long 128 name); simpl; [done|].
  by destruct (exists_ _).
Qed.

Lemma UserRole_objects_create_keeps env user role :
  keeps_identities (UserRole_objects_create env user role).
Proof.
  intros db. unfold UserRole_objects_create, bind, gets; simpl.
  by destruct (_ || _).
Qed.

Lemma AddEdge_keeps key now a b : keeps_identities (AddEdge key now a b).
Proof.
  intros db. unfold AddEdge, Follow_objects_create, bind, gets; simpl.
  by destruct (_ || _).
Qed.

Lemma RemoveEdge_keeps a b : keeps_identities (RemoveEdge a b).
Proof. by intros db. Qed.

(** What a registration leaves in [User] and [Profile]: nothing when
    [create_user] raised, and otherwise one new identity with one new
    profile row, whether or not the role assignment after them went
    through. *)
Lemma RegisterSerializer_create_effect env validated_data db :
  one_profile_each db →
  Env.uuid_profile env ∉ (Profile.id <$> profiles db) →
  let run := RegisterSerializer_create env validated_data db in
  (users run.2 = users db ∧ profiles run.2 = profiles db ∧ ∃ e, run.1 = Raise e)
  ∨ (∃ user profile,
       User.id user = Env.uuid_user env
       ∧ (Env.uuid_user env ∉ (User.id <$> users db))
       ∧ Profile.user profile = Env.uuid_user env
       ∧ users run.2 = users db ++ [user]
       ∧ profiles run.2 = profiles db ++ [profile]
       ∧ ∀ u, run.1 = Ok u → u = user).
Proof.
  intros [Hone Hfk] Hkey run. subst run. unfold RegisterSerializer_create.
  destruct (create_user_effect env validated_data db)
    as [[e Hc]|(user & Hc & Hid & Hnew)].
  { left. rewrite (bind_Raise _ _ _ _ _ Hc). simpl. eauto. }
  rewrite (bind_Ok _ _ _ _ _ Hc).
  right. exists user.
  set (db1 := with_users (λ t, t ++ [user]) db).
  destruct (Profile_objects_create_succeeds env (User.id user) db1)
    as (profile & Hrun & Hp).
  - done.
  - simpl. rewrite fmap_app. apply elem_of_app. right. left.
  - apply filter_nil_iff. simpl. intros p Hin Hu.
    destruct Hnew. rewrite <- Hid, <- Hu. by apply Hfk.
  - exists profile. rewrite (bind_Ok _ _ _ _ _ Hrun).
    set (db2 := with_profiles (λ t, t ++ [profile]) db1).
    split; [done|]. split; [done|]. split; [congruence|].
    pose proof (Role_objects_get_or_create_keeps env
                  (upper (default "user" (ValidatedData.role validated_data))) db2)
      as [Hu3 Hp3].
    destruct (Role_objects_get_or_create _ _ db2) as [[created|e] db3] eqn:Hrole;
      simpl in Hu3, Hp3.
    2:{ rewrite (bind_Raise _ _ _ _ _ Hrole). simpl. rewrite Hu3, Hp3. done. }
    rewrite (bind_Ok _ _ _ _ _ Hrole).
    pose proof (UserRole_objects_create_keeps env (User.id user) (Role.id created.1) db3)
      as [Hu4 Hp4].
    destruct (UserRole_objects_create _ _ _ db3) as [[user_role|e] db4] eqn:Hur;
      simpl in Hu4, Hp4.
    + rewrite (bind_Ok _ _ _ _ _ Hur). simpl. rewrite Hu4, Hp4, Hu3, Hp3.
      repeat split; try done. by intros u [= <-].
    + rewrite (bind_Raise _ _ _ _ _ Hur). simpl. rewrite Hu4, Hp4, Hu3, Hp3. done.
Qed.

Lemma profiles_of_snoc identity db (ps : list Profile.t) (p : Profile.t) :
  profiles db = ps ++ [p] →
  profiles_of identity db
  = filter (λ p, Profile.user p = identity) ps
    ++ (if decide (Profile.user p = identity) then [p] else []).
Proof.
  intros Hps. unfold profiles_of. by rewrite Hps, filter_app.
Qed.

Lemma profiles_of_same identity db db' :
  profiles db' = profiles db → profiles_of identity db' = profiles_of identity db.
Proof. unfold profiles_of. by intros ->. Qed.

Lemma one_profile_each_same db db' :
  users db' = users db → profiles db' = profiles db →
  one_profile_each db → one_profile_each db'.
Proof.
  intros Hu Hp [Hone Hfk]. split.
  - intros u. rewrite Hu, (profiles_of_same _ _ _ Hp). apply Hone.
  - intros p. rewrite Hu, Hp. apply Hfk.
Qed.

(** Under the invariant a stray [Profile.objects.create] is always refused:
    the identity has its profile already, or is not stored. *)
Lemma Profile_objects_create_refused env user db :
  one_profile_each db →
  Profile_objects_create env user db = (Raise IntegrityError, db).
Proof.
  intros [Hone Hfk].
  destruct (Profile_objects_create_effect env user db)
    as [->|(profile & _ & _ & Hnone & Hin)]; [done|].
  apply list_elem_of_fmap in Hin as (u & -> & Hu).
  specialize (Hone u Hu). by rewrite Hnone in Hone.
Qed.

(** What a step does to the identities stored before it. *)
Lemma step_effect db db' :
  one_profile_each db → step db db' →
  one_profile_each db'
  ∧ ∀ u, u ∈ users db →
         u ∈ users db' ∧ profiles_of (User.id u) db' = profiles_of (User.id u) db.
Proof.
  intros Hinv Hstep.
  assert (users db' = users db → profiles db' = profiles db →
          one_profile_each db'
          ∧ ∀ u, u ∈ users db →
                 u ∈ users db' ∧ profiles_of (User.id u) db' = profiles_of (User.id u) db)
    as Hsame.
  { intros Hu Hp. split; [by eapply one_profile_each_same|].
    intros u Hin. rewrite Hu. split; [done|]. by apply profiles_of_same. }
  destruct Hstep as [env vd Hkey|env user|context instance|request view|request view
                     |key now a b|a b].
  - destruct (RegisterSerializer_create_effect env vd db Hinv Hkey)
      as [(Hu & Hp & _)|(user & profile & Hid & Hnew & Hpu & Hu & Hp & _)].
    { by apply Hsame. }
    destruct Hinv as [Hone Hfk].
    assert (∀ u, u ∈ users db →
              profiles_of (User.id u) (RegisterSerializer_create env vd db).2
              = profiles_of (User.id u) db) as Hold.
    { intros u Hin. rewrite (profiles_of_snoc _ _ _ _ Hp).
      rewrite decide_False, app_nil_r; [done|].
      rewrite Hpu. intros Heq. apply Hnew. rewrite Heq. by apply list_elem_of_fmap_2. }
    split; [split|].
    + intros u. rewrite Hu. intros [Hin|Hin%list_elem_of_singleton]%elem_of_app.
      * rewrite Hold by done. by apply Hone.
      * subst u. rewrite (profiles_of_snoc _ _ _ _ Hp), Hid.
        rewrite decide_True by done.
        replace (filter _ (profiles db)) with (@nil Profile.t); [done|].
        symmetry. apply filter_nil_iff. intros p Hin Hpid.
        destruct Hnew. rewrite <- Hpid. by apply Hfk.
    + intros p. rewrite Hu, Hp, fmap_app.
      intros [Hin|Hin%list_elem_of_singleton]%elem_of_app; apply elem_of_app.
      * left. by apply Hfk.
      * right. subst p. rewrite Hpu, <- Hid. left.
    + intros u Hin. split; [|by apply Hold].
      rewrite Hu. apply elem_of_app. by left.
  - apply Hsame; by rewrite (Profile_objects_create_refused _ _ _ Hinv).
  - apply Hsame; by rewrite to_representation_reads_only.
  - apply Hsame; by rewrite IsAdmin_run.
  - apply Hsame; by rewrite IsNormalUser_run.
  - apply Hsame; apply AddEdge_keeps.
  - apply Hsame; apply RemoveEdge_keeps.
Qed.

Lemma reachable_one_profile_each db : reachable db → one_profile_each db.
Proof.
  induction 1 as [|db db' _ IH Hstep].
  - split; intros x Hx; by apply elem_of_nil in Hx.
  - by apply (step_effect db db').
Qed.

Lemma db_both_reachable : reachable db_both.
Proof.
  apply (reachable_step db_alice).
  - apply (reachable_step empty_db); [constructor|].
    apply (step_register empty_db alice_env alice_data).
    intros H. by apply elem_of_nil in H.
  - apply (step_register db_alice bob_env bob_data).
    vm_compute. intros H.
    apply elem_of_cons in H as [H|H]; [discriminate|]. by apply elem_of_nil in H.
Qed.

(** C9: exactly one profile per identity.  In every database the service
    can reach, each stored identity (active or not) has exactly one profile
    row; no operation removes an identity, or adds to or takes from the
    profile rows of an identity stored before it; and a registration that
    returns its user has stored a new identity with exactly one profile
    row, where there was none for it before. *)
Theorem one_profile_per_identity (db : DB) :
  reachable db →
  (∀ u, u ∈ users db → length (profiles_of (User.id u) db) = 1%nat)
  ∧ (∀ db', step db db' →
       ∀ u, u ∈ users db →
            u ∈ users db' ∧ profiles_of (User.id u) db' = profiles_of (User.id u) db)
  ∧ (∀ env validated_data user db',
       Env.uuid_profile env ∉ (Profile.id <$> profiles db) →
       RegisterSerializer_create env validated_data db = (Ok user, db') →
       (user ∉ users db) ∧ user ∈ users db'
       ∧ profiles_of (User.id user) db = []
       ∧ length (profiles_of (User.id user) db') = 1%nat).
Proof.
  intros Hreach. pose proof (reachable_one_profile_each db Hreach) as Hinv.
  split; [apply Hinv|]. split.
  - intros db' Hstep. by apply step_effect.
  - intros env vd user db' Hkey Hrun.
    assert (step db db') as Hstep.
    { replace db' with (RegisterSerializer_create env vd db).2 by (by rewrite Hrun).
      by constructor. }
    destruct (step_effect db db' Hinv Hstep) as [[Hone' _] _].
    destruct (RegisterSerializer_create_effect env vd db Hinv Hkey)
      as [(_ & _ & e & He)|(user' & profile & Hid & Hnew & Hpu & Hu & Hp & Hret)];
      rewrite Hrun in *; simpl in *; [discriminate|].
    specialize (Hret user eq_refl). subst user'.
    assert (user ∈ users db') as Hin by (rewrite Hu; apply elem_of_app; right; left).
    split; [|split; [done|split; [|by apply Hone']]].
    + intros Hold. apply Hnew. rewrite <- Hid. by apply list_elem_of_fmap_2.
    + apply filter_nil_iff. intros p Hp' Heq. destruct Hinv as [_ Hfk].
      apply Hnew. rewrite <- Hid, <- Heq. by apply Hfk.
Qed.

Lemma one_profile_per_identity_witness :
  reachable db_both
  ∧ alice ∈ users db_both ∧ bob ∈ users db_both
  ∧ length (profiles_of (User.id alice) db_both) = 1%nat
  ∧ length (profiles_of (User.id bob) db_both) = 1%nat.
Proof.
  destruct (one_profile_per_identity db_both db_both_reachable) as [Hone _].
  assert (alice ∈ users db_both) as Ha by (vm_compute; left).
  assert (bob ∈ users db_both) as Hb by (vm_compute; right; left).
  split; [apply db_both_reachable|].
  split; [exact Ha|]. split; [exact Hb|].
  split; [exact (Hone alice Ha)|exact (Hone bob Hb)].
Defined.

(** ** Registration on the sample data *)

Example register_alice :
  RegisterSerializer_create alice_env alice_data empty_db = (Ok alice, db_alice)
  ∧ profiles_of 1%N db_alice = [alice_profile]
  ∧ Role.name <$> roles db_alice = ["USER"]
  ∧ (IsNormalUser_has_permission (Request.mk (UserInstance alice) "GET") "profile"
                                 db_alice).1 = Ok true.
Proof. by vm_compute. Qed.

(** A second registration under Alice's username or address is refused and
    stores nothing. *)
Example register_alice_again :
  RegisterSerializer_create bob_env alice_data db_alice = (Raise IntegrityError, db_alice).
Proof. by vm_compute. Qed.

(** The serializer lists [mobile_number], the model has no such column. *)
Example register_mobile_number :
  RegisterSerializer_create bob_env
    (ValidatedData.mk "bobby" "bob@example.org" "Secret-456" None None (Some "0123456789"))
    db_alice
  = (Raise TypeError, db_alice).
Proof. by vm_compute. Qed.

(** No transaction wraps [create]: Carol's account and profile stay. *)
Example register_carol :
  (RegisterSerializer_create carol_env carol_data db_both).1 = Raise DataError
  ∧ users db_carol = users db_both ++ [carol]
  ∧ length (profiles_of 3%N db_carol) = 1%nat
  ∧ filter (λ ur, UserRole.user ur = 3%N) (user_roles db_carol) = [].
Proof. by vm_compute. Qed.

(** * Further properties of the sources *)

(** ** Queries, once more *)

Lemma exists_fmap_eq {A B} `{EqDecision B} (f : A → B) (l : list A) (b : B) :
  exists_ (filter (λ x, f x = b) l) = bool_decide (b ∈ f <$> l).
Proof.
  destruct (bool_decide (b ∈ f <$> l)) eqn:E.
  - apply bool_decide_eq_true in E. apply list_elem_of_fmap in E as (x & -> & Hx).
    apply exists_filter. eauto.
  - apply bool_decide_eq_false in E. apply exists_filter_false.
    intros x Hx <-. apply E. by apply list_elem_of_fmap_2.
Qed.

Lemma exists_filter_or {A} (P Q : A → Prop)
    `{!∀ x, Decision (P x)} `{!∀ x, Decision (Q x)} (l : list A) :
  exists_ (filter (λ x, P x ∨ Q x) l) = exists_ (filter P l) || exists_ (filter Q l).
Proof.
  apply Bool.eq_iff_eq_true.
  rewrite orb_true_iff, !exists_filter. split.
  - intros (x & Hx & [HP|HQ]); eauto.
  - intros [(x & Hx & HP)|(x & Hx & HQ)]; eauto.
Qed.

Lemma follow_edge_pair a b db :
  follow_edge a b db ↔ (a, b) ∈ follow_pair <$> follows db.
Proof.
  rewrite list_elem_of_fmap. unfold follow_edge, follow_pair. split.
  - intros (f & Hf & <- & <-). eauto.
  - intros (f & [= -> ->] & Hf). eauto.
Qed.

(** ** The inserts, case by case *)

Lemma create_user_run env validated_data db :
  create_user env validated_data db
  = if bool_decide (ValidatedData.username validated_data = "") then (Raise ValueError, db)
    else if bool_decide (is_Some (ValidatedData.mobile_number validated_data))
    then (Raise TypeError, db)
    else if too_long 150 (ValidatedData.username validated_data)
            || too_long 254 (ValidatedData.email validated_data)
            || too_long 150 (default "" (ValidatedData.display_name validated_data))
    then (Raise DataError, db)
    else if bool_decide (Env.uuid_user env ∈ (User.id <$> users db))
            || bool_decide (ValidatedData.username validated_data ∈ (User.username <$> users db))
            || bool_decide (ValidatedData.email validated_data ∈ (User.email <$> users db))
    then (Raise IntegrityError, db)
    else (Ok (new_user env validated_data),
          with_users (λ t, t ++ [new_user env validated_data]) db).
Proof.
  unfold create_user. case_bool_decide; [done|].
  destruct (ValidatedData.mobile_number validated_data) as [m|]; simpl;
    [reflexivity|].
  destruct (_ || _); [reflexivity|].
  unfold bind, gets. simpl.
  rewrite (exists_filter_or (λ u, User.id u = Env.uuid_user env)).
  rewrite (exists_filter_or (λ u, User.username u = ValidatedData.username validated_data)).
  rewrite !exists_fmap_eq, orb_assoc.
  by destruct (_ || _).
Qed.

Lemma Profile_objects_create_run env user db :
  Profile_objects_create env user db
  = if bool_decide (Env.uuid_profile env ∈ (Profile.id <$> profiles db))
       || bool_decide (user ∈ (Profile.user <$> profiles db))
       || negb (bool_decide (user ∈ (User.id <$> users db)))
    then (Raise IntegrityError, db)
    else (Ok (new_profile env user), with_profiles (λ t, t ++ [new_profile env user]) db).
Proof.
  unfold Profile_objects_create, bind, gets. simpl.
  rewrite (exists_filter_or (λ p, Profile.id p = Env.uuid_profile env)).
  rewrite !exists_fmap_eq.
  by destruct (_ || _).
Qed.

Lemma UserRole_objects_create_run env user role db :
  UserRole_objects_create env user role db
  = if bool_decide ((user, role) ∈ (user_role_pair <$> user_roles db))
       || negb (bool_decide (user ∈ (User.id <$> users db)))
       || negb (bool_decide (role ∈ (Role.id <$> roles db)))
    then (Raise IntegrityError, db)
    else
      let user_role := UserRole.mk (next_id (UserRole.id <$> user_roles db))
                                   user role (Env.now env) in
      (Ok user_role, with_user_roles (λ t, t ++ [user_role]) db).
Proof.
  unfold UserRole_objects_create, bind, gets. simpl.
  rewrite !exists_fmap_eq.
  replace (exists_ (filter _ (user_roles db)))
    with (bool_decide ((user, role) ∈ (user_role_pair <$> user_roles db))).
  - by destruct (_ || _).
  - rewrite <- exists_fmap_eq. apply Bool.eq_iff_eq_true.
    rewrite !exists_filter. unfold user_role_pair. split.
    + intros (ur & Hur & [= <- <-]). eauto.
    + intros (ur & Hur & <- & <-). eauto.
Qed.

Lemma Follow_objects_create_run key now a b db :
  Follow_objects_create key now a b db
  = if bool_decide (key ∈ (Follow.id <$> follows db))
       || bool_decide ((a, b) ∈ (follow_pair <$> follows db))
       || negb (bool_decide (a ∈ (User.id <$> users db)))
       || negb (bool_decide (b ∈ (User.id <$> users db)))
    then (Raise IntegrityError, db)
    else (Ok (Follow.mk key now now true a b),
          with_follows (λ t, t ++ [Follow.mk key now now true a b]) db).
Proof.
  unfold Follow_objects_create, bind, gets. simpl.
  rewrite !exists_fmap_eq, IsFollowing_edge.
  rewrite (bool_decide_ext _ _ (follow_edge_pair a b db)).
  by destruct (_ || _).
Qed.

Lemma Role_objects_get_or_create_unfold env name db :
  Role_objects_get_or_create env name db
  = let role := Role.mk (Env.uuid_role env) (Env.now env) (Env.now env) true name None [] in
    match filter (λ r, Role.name r = name) (roles db) with
    | [stored] => (Ok (stored, false), db)
    | _ :: _ :: _ => (Raise MultipleObjectsReturned, db)
    | [] =>
        if too_long 128 name then (Raise DataError, db)
        else if bool_decide (Env.uuid_role env ∈ (Role.id <$> roles db))
        then (Raise IntegrityError, db)
        else (Ok (role, true), with_roles (λ t, t ++ [role]) db)
    end.
Proof.
  unfold Role_objects_get_or_create, bind at 1, gets at 1.
  destruct (filter (λ r, Role.name r = name) (roles db)) as [|r [|r' rs]];
    [|reflexivity|reflexivity].
  destruct (too_long 128 name); [reflexivity|].
  unfold bind, gets. rewrite exists_fmap_eq. simpl.
  by destruct (bool_decide _).
Qed.

(** [get_or_create] on a table with unique names: the stored role of that
    name if there is one, and otherwise an insert. *)
Lemma Role_objects_get_or_create_run env name db :
  NoDup (Role.name <$> roles db) →
  let role := Role.mk (Env.uuid_role env) (Env.now env) (Env.now env) true name None [] in
  (∃ stored, stored ∈ roles db ∧ Role.name stored = name
             ∧ Role_objects_get_or_create env name db = (Ok (stored, false), db))
  ∨ ((name ∉ (Role.name <$> roles db))
     ∧ Role_objects_get_or_create env name db
       = if too_long 128 name then (Raise DataError, db)
         else if bool_decide (Env.uuid_role env ∈ (Role.id <$> roles db))
         then (Raise IntegrityError, db)
         else (Ok (role, true), with_roles (λ t, t ++ [role]) db)).
Proof.
  intros Hnames role. rewrite Role_objects_get_or_create_unfold. cbv zeta.
  destruct (filter (λ r, Role.name r = name) (roles db)) as [|r [|r' rs]] eqn:F.
  - right. split; [|done].
    intros (r & -> & Hr)%list_elem_of_fmap.
    eapply filter_nil_iff in F; [|exact Hr]. by apply F.
  - left. exists r.
    assert (r ∈ filter (λ r, Role.name r = name) (roles db)) as Hr by (rewrite F; left).
    apply list_elem_of_filter in Hr as [Hn Hr]. done.
  - exfalso.
    assert (NoDup (Role.name <$> filter (λ r, Role.name r = name) (roles db))) as Hnd.
    { eapply sublist_NoDup; [exact Hnames|]. apply fmap_sublist, sublist_filter. }
    assert (∀ x, x ∈ filter (λ r, Role.name r = name) (roles db) → Role.name x = name) as Hall.
    { intros x Hx. by apply list_elem_of_filter in Hx as [? _]. }
    rewrite F in Hnd, Hall. simpl in Hnd.
    apply NoDup_cons in Hnd as [Hnot _]. apply Hnot.
    rewrite (Hall r) by left. rewrite <- (Hall r') by (right; left). left.
Qed.

(** ** Sequences keep what each call keeps *)

Lemma preserves_bind {A B} (P : DB → Prop) (m : M A) (k : A → M B) :
  preserves P m → (∀ a, preserves P (k a)) → preserves P (bind m k).
Proof.
  intros Hm Hk db HP. unfold bind.
  specialize (Hm db HP). destruct (m db) as [[a|e] db1]; simpl in *; [|done].
  by apply Hk.
Qed.

Lemma preserves_ret {A} (P : DB → Prop) (a : A) : preserves P (ret a).
Proof. by intros db HP. Qed.

Lemma preserves_same {A} (P : DB → Prop) (m : M A) :
  (∀ db, (m db).2 = db) → preserves P m.
Proof. intros Hm db HP. by rewrite Hm. Qed.

(** ** The declared constraints are kept *)

Lemma NoDup_fmap_snoc {A B} (f : A → B) (l : list A) (x : A) :
  NoDup (f <$> l) → f x ∉ f <$> l → NoDup (f <$> (l ++ [x])).
Proof.
  intros Hnd Hx. rewrite fmap_app. apply NoDup_app. split; [done|]. split.
  - intros y Hy ->%list_elem_of_singleton. done.
  - apply NoDup_singleton.
Qed.

Lemma elem_of_fmap_snoc {A B} (f : A → B) (l : list A) (x : A) (b : B) :
  b ∈ f <$> l → b ∈ f <$> (l ++ [x]).
Proof. intros Hb. rewrite fmap_app. apply elem_of_app. by left. Qed.

Lemma elem_of_fmap_last {A B} (f : A → B) (l : list A) (x : A) :
  f x ∈ f <$> (l ++ [x]).
Proof. rewrite fmap_app. apply elem_of_app. right. left. Qed.

Lemma create_user_schema env validated_data :
  preserves schema (create_user env validated_data).
Proof.
  intros db Hs. rewrite create_user_run.
  repeat (case_bool_decide || destruct (too_long _ _)); simpl; try done.
  destruct Hs. split; simpl; try done.
  - by apply NoDup_fmap_snoc.
  - by apply NoDup_fmap_snoc.
  - by apply NoDup_fmap_snoc.
  - intros p Hp. by apply elem_of_fmap_snoc, profile_user_stored0.
  - intros ur Hur. destruct (user_role_stored0 ur Hur).
    split; [by apply elem_of_fmap_snoc|done].
  - intros f Hf. destruct (follow_ends_stored0 f Hf).
    split; by apply elem_of_fmap_snoc.
Qed.

Lemma Profile_objects_create_schema env user :
  preserves schema (Profile_objects_create env user).
Proof.
  intros db Hs. rewrite Profile_objects_create_run.
  repeat case_bool_decide; simpl; try done.
  destruct Hs. split; simpl; try done.
  - by apply NoDup_fmap_snoc.
  - by apply NoDup_fmap_snoc.
  - intros p [Hp| ->%list_elem_of_singleton]%elem_of_app; [by apply profile_user_stored0|done].
Qed.

Lemma Role_objects_get_or_create_schema env name :
  preserves schema (Role_objects_get_or_create env name).
Proof.
  intros db Hs. rewrite Role_objects_get_or_create_unfold. cbv zeta.
  destruct (filter (λ r, Role.name r = name) (roles db)) as [|r [|r' rs]] eqn:F;
    [|done|done].
  destruct (too_long 128 name); [done|]. case_bool_decide; [done|]. simpl.
  destruct Hs. split; simpl; try done.
  - by apply NoDup_fmap_snoc.
  - apply NoDup_fmap_snoc; [done|]. simpl.
    intros (r & -> & Hr)%list_elem_of_fmap.
    eapply filter_nil_iff in F; [|exact Hr]. by apply F.
  - intros ur Hur. destruct (user_role_stored0 ur Hur).
    split; [done|by apply elem_of_fmap_snoc].
Qed.

Lemma UserRole_objects_create_schema env user role :
  preserves schema (UserRole_objects_create env user role).
Proof.
  intros db Hs. rewrite UserRole_objects_create_run.
  repeat case_bool_decide; simpl; try done.
  destruct Hs. split; simpl; try done.
  - by apply NoDup_fmap_snoc.
  - intros ur [Hur| ->%list_elem_of_singleton]%elem_of_app; [by apply user_role_stored0|done].
Qed.

Lemma Follow_objects_create_schema key now a b :
  preserves schema (Follow_objects_create key now a b).
Proof.
  intros db Hs. rewrite Follow_objects_create_run.
  repeat case_bool_decide; simpl; try done.
  destruct Hs. split; simpl; try done.
  - by apply NoDup_fmap_snoc.
  - by apply NoDup_fmap_snoc.
  - intros f [Hf| ->%list_elem_of_singleton]%elem_of_app; [by apply follow_ends_stored0|done].
Qed.

Lemma RemoveEdge_schema a b : preserves schema (RemoveEdge a b).
Proof.
  intros db Hs. destruct Hs. split; simpl; try done.
  - eapply sublist_NoDup; [exact follow_id_unique0|]. apply fmap_sublist, sublist_filter.
  - eapply sublist_NoDup; [exact follow_pair_unique0|]. apply fmap_sublist, sublist_filter.
  - intros f [_ Hf]%list_elem_of_filter. by apply follow_ends_stored0.
Qed.

Lemma RegisterSerializer_create_schema env validated_data :
  preserves schema (RegisterSerializer_create env validated_data).
Proof.
  unfold RegisterSerializer_create.
  apply preserves_bind; [apply create_user_schema|]. intros user.
  apply preserves_bind; [apply Profile_objects_create_schema|]. intros _.
  apply preserves_bind; [apply Role_objects_get_or_create_schema|]. intros created.
  apply preserves_bind; [apply UserRole_objects_create_schema|]. intros _.
  apply preserves_ret.
Qed.

Lemma step_schema db db' : schema db → step db db' → schema db'.
Proof.
  intros Hs [env vd _|env user|context instance|request view|request view|key now a b|a b].
  - by apply RegisterSerializer_create_schema.
  - by apply Profile_objects_create_schema.
  - by rewrite to_representation_reads_only.
  - by rewrite IsAdmin_run.
  - by rewrite IsNormalUser_run.
  - revert Hs. apply (preserves_bind schema); [apply Follow_objects_create_schema|].
    intros _. apply preserves_ret.
  - by apply RemoveEdge_schema.
Qed.

Lemma empty_db_schema : schema empty_db.
Proof.
  split; simpl; try apply NoDup_nil_2; intros x Hx; by apply elem_of_nil in Hx.
Qed.

Lemma reachable_schema db : reachable db → schema db.
Proof.
  induction 1 as [|db db' _ IH Hstep]; [apply empty_db_schema|].
  by apply (step_schema db db').
Qed.

(** ** Role names *)









(** ** What a registration leaves behind *)

Lemma create_user_outcomes env validated_data db :
  (∃ e, create_user env validated_data db = (Raise e, db))
  ∨ (create_user env validated_data db
       = (Ok (new_user env validated_data),
          with_users (λ t, t ++ [new_user env validated_data]) db)
     ∧ Env.uuid_user env ∉ (User.id <$> users db)).
Proof.
  rewrite create_user_run.
  repeat (case_bool_decide || destruct (too_long _ _)); simpl; eauto.
Qed.

(** Every way a registration can go on a database that meets the declared
    constraints, with the database each way leaves. *)
Lemma RegisterSerializer_create_outcomes env validated_data db :
  schema db →
  let user := new_user env validated_data in
  let name := requested_role validated_data in
  let db1 := with_users (λ t, t ++ [user]) db in
  let db2 := with_profiles (λ t, t ++ [new_profile env (Env.uuid_user env)]) db1 in
  let db3 := with_roles (λ t, t ++ [new_role env name]) db2 in
  let run := RegisterSerializer_create env validated_data db in
  (∃ e, create_user env validated_data db = (Raise e, db) ∧ run = (Raise e, db))
  ∨ ((Env.uuid_user env ∉ (User.id <$> users db))
     ∧ create_user env validated_data db = (Ok user, db1)
     ∧ ((Env.uuid_profile env ∈ (Profile.id <$> profiles db)
         ∧ run = (Raise IntegrityError, db1))
        ∨ ((Env.uuid_profile env ∉ (Profile.id <$> profiles db))
           ∧ ((∃ stored, stored ∈ roles db ∧ Role.name stored = name
                 ∧ run = (Ok user,
                          with_user_roles (λ t, t ++ [assignment env stored db]) db2))
              ∨ ((name ∉ (Role.name <$> roles db))
                 ∧ ((too_long 128 name = true ∧ run = (Raise DataError, db2))
                    ∨ (too_long 128 name = false
                       ∧ Env.uuid_role env ∈ (Role.id <$> roles db)
                       ∧ run = (Raise IntegrityError, db2))
                    ∨ (too_long 128 name = false
                       ∧ (Env.uuid_role env ∉ (Role.id <$> roles db))
                       ∧ run = (Ok user,
                                with_user_roles
                                  (λ t, t ++ [assignment env (new_role env name) db])
                                  db3)))))))).
Proof.
  intros Hs user name db1 db2 db3 run. subst run.
  unfold RegisterSerializer_create. fold (requested_role validated_data). fold name.
  destruct (create_user_outcomes env validated_data db) as [[e Hc]|[Hc Hnew]].
  { left. exists e. split; [done|]. by rewrite (bind_Raise _ _ _ _ _ Hc). }
  right. split; [done|]. split; [done|].
  rewrite (bind_Ok _ _ _ _ _ Hc). fold user db1. simpl User.id.
  assert (Env.uuid_user env ∉ (Profile.user <$> profiles db)) as Hnop.
  { intros (p & Hu & Hp)%list_elem_of_fmap. apply Hnew. rewrite Hu.
    by apply (profile_user_stored db Hs). }
  assert (∀ r, (Env.uuid_user env, r) ∉ (user_role_pair <$> user_roles db)) as Hnour.
  { intros r (ur & [= Hu _] & Hur)%list_elem_of_fmap. apply Hnew. rewrite Hu.
    by apply (user_role_stored db Hs). }
  pose proof (Profile_objects_create_run env (Env.uuid_user env) db1) as Hp.
  simpl in Hp.
  rewrite (bool_decide_eq_false_2 _ Hnop) in Hp.
  rewrite (bool_decide_eq_true_2 (Env.uuid_user env ∈ _)) in Hp
    by (apply (elem_of_fmap_last User.id _ user)).
  simpl in Hp. rewrite orb_false_r in Hp.
  destruct (decide (Env.uuid_profile env ∈ (Profile.id <$> profiles db))) as [Hpid|Hpid].
  { left. split; [done|].
    rewrite (bool_decide_eq_true_2 _ Hpid) in Hp. by rewrite (bind_Raise _ _ _ _ _ Hp). }
  right. split; [done|].
  rewrite (bool_decide_eq_false_2 _ Hpid) in Hp.
  rewrite (bind_Ok _ _ _ _ _ Hp). fold db2.
  assert (∀ role stored : DB,
            users stored = users db2 → user_roles stored = user_roles db →
            ∀ r, r ∈ roles stored →
            UserRole_objects_create env (Env.uuid_user env) (Role.id r) stored
            = (Ok (assignment env r db),
               with_user_roles (λ t, t ++ [assignment env r db]) stored)) as Hassign.
  { intros _ stored Hus Hurs r Hr. rewrite UserRole_objects_create_run, Hus, Hurs.
    rewrite (bool_decide_eq_false_2 _ (Hnour _)).
    rewrite (bool_decide_eq_true_2 (Env.uuid_user env ∈ _))
      by (simpl; apply (elem_of_fmap_last User.id _ user)).
    rewrite (bool_decide_eq_true_2 (Role.id r ∈ _)) by (by apply list_elem_of_fmap_2).
    reflexivity. }
  destruct (Role_objects_get_or_create_run env name db2 (role_name_unique db Hs))
    as [(stored & Hin & Hname & Hr)|[Hnone Hr]].
  - simpl in Hin. left. exists stored. split; [done|]. split; [done|].
    rewrite (bind_Ok _ _ _ _ _ Hr). simpl.
    rewrite (bind_Ok _ _ _ _ _ (Hassign db2 db2 eq_refl eq_refl stored Hin)). done.
  - simpl in Hnone. right. split; [done|]. simpl in Hr.
    destruct (too_long 128 name) eqn:Hlong.
    { left. split; [done|]. by rewrite (bind_Raise _ _ _ _ _ Hr). }
    right. case_bool_decide as Hrid.
    { left. split; [done|]. split; [done|]. by rewrite (bind_Raise _ _ _ _ _ Hr). }
    right. split; [done|]. split; [done|].
    rewrite (bind_Ok _ _ _ _ _ Hr). simpl.
    fold (new_role env name). fold db3.
    rewrite (bind_Ok _ _ _ _ _ (Hassign db3 db3 eq_refl eq_refl (new_role env name)
                                  ltac:(simpl; apply elem_of_app; right; left))).
    done.
Qed.

Lemma NoDup_fmap_eq {A B} (f : A → B) (l : list A) (x y : A) :
  NoDup (f <$> l) → x ∈ l → y ∈ l → f x = f y → x = y.
Proof.
  induction l as [|z l IH]; intros Hnd Hx Hy Heq; [by apply elem_of_nil in Hx|].
  rewrite fmap_cons in Hnd. apply NoDup_cons in Hnd as [Hz Hnd].
  apply elem_of_cons in Hx as [->|Hx]; apply elem_of_cons in Hy as [->|Hy].
  - done.
  - destruct Hz. rewrite Heq. by apply list_elem_of_fmap_2.
  - destruct Hz. rewrite <- Heq. by apply list_elem_of_fmap_2.
  - by apply IH.
Qed.

(** Which role names an identity holds once its only assignment is added. *)
Lemma holds_role_after identity role ur name db db' :
  (∀ x, x ∈ user_roles db → UserRole.user x ≠ identity) →
  NoDup (Role.id <$> roles db') →
  role ∈ roles db' →
  user_roles db' = user_roles db ++ [ur] →
  UserRole.user ur = identity →
  UserRole.role ur = Role.id role →
  holds_role identity name db' ↔ Role.name role = name.
Proof.
  intros Hnone Hnd Hrole Hurs Hu Hr. unfold holds_role. rewrite Hurs. split.
  - intros (x & [Hx| ->%list_elem_of_singleton]%elem_of_app & Hxu & r & Hrin & Hid & Hname).
    + by destruct (Hnone x Hx).
    + rewrite Hr in Hid. by rewrite <- (NoDup_fmap_eq Role.id _ r role Hnd Hrin Hrole Hid).
  - intros Hname. exists ur. split; [apply elem_of_app; right; left|].
    split; [done|]. exists role. done.
Qed.






Lemma registration_success_shape (env : Env.t) (validated_data : ValidatedData.t)
    (db db' : DB) (user : User.t) :
  schema db →
  RegisterSerializer_create env validated_data db = (Ok user, db') →
  user = new_user env validated_data
  ∧ users db' = users db ++ [user]
  ∧ profiles db' = profiles db ++ [new_profile env (User.id user)]
  ∧ follows db' = follows db
  ∧ resources db' = resources db
  ∧ permissions db' = permissions db
  ∧ ∃ role,
      Role.name role = requested_role validated_data
      ∧ user_roles db' = user_roles db ++ [assignment env role db]
      ∧ ((role ∈ roles db ∧ roles db' = roles db)
         ∨ ((requested_role validated_data ∉ (Role.name <$> roles db))
            ∧ role = new_role env (requested_role validated_data)
            ∧ roles db' = roles db ++ [role])).
Proof.
  intros Hs Hrun.
  destruct (RegisterSerializer_create_outcomes env validated_data db Hs)
    as [(e & _ & He)|(_ & _ & [[_ He]|(_ & [(stored & Hin & Hname & He)
         |(Hnone & [[_ He]|[(_ & _ & He)|(_ & _ & He)]])])])];
    rewrite Hrun in He; try discriminate; injection He as -> ->; simpl.
  - repeat split. exists stored. repeat split; auto.
  - repeat split. exists (new_role env (requested_role validated_data)).
    repeat split; auto.
Qed.



(** X4: the permissions of a newly registered account.  Whatever role was
    asked for, the account does not pass [IsAdmin]; it passes [IsNormalUser]
    exactly when the requested role name, put in upper case, is ["USER"]
    (the default when no role is given). *)
Theorem registered_account_permissions (env : Env.t) (validated_data : ValidatedData.t)
    (db db' : DB) (user : User.t) (method : string) (view : APIView) :
  schema db →
  RegisterSerializer_create env validated_data db = (Ok user, db') →
  IsAdmin_has_permission (Request.mk (UserInstance user) method) view db' = (Ok false, db')
  ∧ IsNormalUser_has_permission (Request.mk (UserInstance user) method) view db'
    = (Ok (bool_decide (requested_role validated_data = "USER")), db').
Proof.
  intros Hs Hrun.
  assert (schema db') as Hs'.
  { replace db' with (RegisterSerializer_create env validated_data db).2 by (by rewrite Hrun).
    by apply RegisterSerializer_create_schema. }
  assert (Env.uuid_user env ∉ (User.id <$> users db)) as Hnew.
  { destruct (create_user_outcomes env validated_data db) as [[e Hc]|[_ Hnew]]; [|done].
    unfold RegisterSerializer_create in Hrun.
    rewrite (bind_Raise _ _ _ _ _ Hc) in Hrun. discriminate. }
  destruct (registration_success_shape env validated_data db db' user Hs Hrun)
    as (-> & Hu & _ & _ & _ & _ & role & Hname & Hurs & Hroles).
  rewrite IsAdmin_run, IsNormalUser_run. simpl. split; [done|].
  do 2 f_equal. apply bool_decide_ext.
  rewrite <- Hname.
  apply (holds_role_after _ role (assignment env role db) _ db db'); try done.
  - intros x Hx Heq. apply Hnew. rewrite <- Heq. by apply (user_role_stored db Hs).
  - by apply role_id_unique.
  - destruct Hroles as [[Hin ->]|(_ & _ & ->)]; [done|]. apply elem_of_app. right. left.
Qed.

Lemma registered_account_permissions_witness :
  IsAdmin_has_permission (Request.mk (UserInstance erin) "GET") "profile" db_erin
  = (Ok false, db_erin)
  ∧ IsNormalUser_has_permission (Request.mk (UserInstance erin) "GET") "profile" db_erin
    = (Ok (bool_decide (requested_role erin_data = "USER")), db_erin)
  ∧ requested_role erin_data = "ADMIN".
Proof.
  assert (RegisterSerializer_create erin_env erin_data db_both = (Ok erin, db_erin)) as Hrun
    by (by vm_compute).
  destruct (registered_account_permissions erin_env erin_data db_both db_erin erin
              "GET" "profile" (reachable_schema _ db_both_reachable) Hrun) as [Ha Hn].
  split; [exact Ha|]. split; [exact Hn|]. by vm_compute.
Defined.






(** ** The username validator *)

Lemma every_nil class : every class "".
Proof. intros c Hc. by apply elem_of_nil in Hc. Qed.

Lemma every_cons class c s :
  every class (String c s) ↔ class c = true ∧ every class s.
Proof.
  unfold every, chars. simpl. split.
  - intros H. split; [apply H; left|]. intros d Hd. apply H. by right.
  - intros [Hc Hs] d [->|Hd]%elem_of_cons; [done|by apply Hs].
Qed.

Lemma append_cons c s t : String c s +:+ t = String c (s +:+ t).
Proof. reflexivity. Qed.

Lemma append_nil_l t : "" +:+ t = t.
Proof. reflexivity. Qed.

Lemma append_nil_r s : s +:+ "" = s.
Proof. induction s as [|c s IH]; [done|]. by rewrite append_cons, IH. Qed.

Lemma code_point_inj c n : code_point c = n → c = Ascii.ascii_of_N n.
Proof. intros <-. unfold code_point. by rewrite Ascii.ascii_N_embedding. Qed.

Lemma line_feed_only c : one_of [10%N] c = true ↔ c = "010"%char.
Proof.
  unfold one_of. rewrite bool_decide_eq_true, list_elem_of_singleton. split.
  - intros H. by apply code_point_inj in H.
  - by intros ->.
Qed.

Lemma line_feed_not_username_char : username_char "010"%char = false.
Proof. reflexivity. Qed.

Lemma username_tail_shape s :
  username_tail s = true
  ↔ ∃ body, every username_char body ∧ (s = body ∨ s = body +:+ line_feed).
Proof.
  split.
  - induction s as [|c s IH]; [exists ""; split; [apply every_nil|by left]|].
    destruct s as [|d s].
    + simpl. intros [Hc|Hc%line_feed_only]%orb_true_iff.
      * exists (String c ""). split; [|by left]. apply every_cons. split; [done|apply every_nil].
      * subst c. exists "". split; [apply every_nil|by right].
    + intros [Hc Ht]%andb_true_iff. destruct (IH Ht) as (body & Hbody & Hs).
      exists (String c body). split; [by apply every_cons|].
      rewrite append_cons. destruct Hs as [->| ->]; auto.
  - intros (body & Hbody & Hs). revert s Hs.
    induction body as [|c body IH]; intros s Hs.
    + destruct Hs as [->| ->]; reflexivity.
    + apply every_cons in Hbody as [Hc Hbody].
      assert (∃ rest, s = String c rest ∧ (rest = body ∨ rest = body +:+ line_feed))
        as (rest & -> & Hrest) by (destruct Hs as [->| ->]; eauto).
      specialize (IH Hbody rest Hrest).
      destruct rest as [|d rest]; simpl; [by rewrite Hc|].
      by rewrite Hc.
Qed.

Lemma username_pattern_shape value :
  username_pattern value = true ↔ username_shaped value.
Proof.
  unfold username_shaped. destruct value as [|c s]; simpl.
  - split; [done|]. intros (c & body & _ & _ & [?|?]); discriminate.
  - rewrite andb_true_iff, username_tail_shape. split.
    + intros (Hc & body & Hbody & Hs). exists c, body.
      split; [done|]. split; [done|]. destruct Hs as [->| ->]; auto.
    + intros (c' & body & Hc & Hbody & Hs).
      assert (c' = c ∧ (s = body ∨ s = body +:+ line_feed)) as [-> Hs']
        by (destruct Hs as [[= -> ->]|[= -> ->]]; auto).
      eauto.
Qed.

Lemma validate_username_accepts value db :
  validate_username value db = Return value
  ↔ (4 ≤ String.length value)%nat
    ∧ username_shaped value
    ∧ value ∉ (User.username <$> users db).
Proof.
  unfold validate_username. rewrite <- username_pattern_shape, exists_fmap_eq.
  destruct (Nat.ltb_spec (String.length value) 4).
  { split; [done|]. intros [? _]. lia. }
  destruct (username_pattern value); simpl; [|split; [done|]; by intros (_ & ? & _)].
  case_bool_decide; split; try done.
  by intros (_ & _ & ?).
Qed.

Lemma validate_username_returns value w db :
  validate_username value db = Return w → w = value.
Proof.
  unfold validate_username.
  destruct (String.length value <? 4)%nat; [done|].
  destruct (username_pattern value); simpl; [|done].
  destruct (exists_ _); [done|]. by intros [= <-].
Qed.

(** X6: which usernames [validate_username] accepts.  It returns the value
    unchanged, and does so exactly when the value has at least four
    characters, is a letter followed by letters, digits, underscores and
    dots and then possibly one closing line feed (the pattern's [$] also
    matches before a final line feed), and no stored user has it; in every
    other case it raises. *)
Theorem validate_username_accepted (value w : string) (db : DB) :
  (validate_username value db = Return w
   ↔ w = value
     ∧ (4 ≤ String.length value)%nat
     ∧ username_shaped value
     ∧ value ∉ (User.username <$> users db))
  ∧ ((∀ v, validate_username value db ≠ Return v)
     → ∃ detail, validate_username value db = Throw (serializers_ValidationError detail)).
Proof.
  split.
  - split.
    + intros H. pose proof (validate_username_returns _ _ _ H) as ->.
      split; [done|]. by apply validate_username_accepts.
    + intros (-> & H). by apply validate_username_accepts.
  - intros Hno. unfold validate_username in *.
    destruct (String.length value <? 4)%nat; [by eexists|].
    destruct (username_pattern value); simpl in *; [|by eexists].
    destruct (exists_ _); [by eexists|]. by destruct (Hno value).
Qed.

(** X7: a closing line feed gets through.  If [validate_username] accepts a
    name made of letters, digits, underscores and dots, it also accepts that
    name followed by a line feed, as a different username, unless that one
    is stored already. *)
Theorem validate_username_line_feed (name : string) (db : DB) :
  validate_username name db = Return name →
  every username_char name →
  name +:+ line_feed ∉ (User.username <$> users db) →
  validate_username (name +:+ line_feed) db = Return (name +:+ line_feed)
  ∧ name +:+ line_feed ≠ name.
Proof.
  intros Hname Hchars Hfree.
  apply validate_username_accepts in Hname as (Hlen & (c & body & Hc & Hbody & Hs) & _).
  assert (name = String c body) as ->.
  { destruct Hs as [->| ->]; [done|]. exfalso.
    apply every_cons in Hchars as [_ Hchars].
    assert (username_char "010"%char = true); [|done].
    apply Hchars. unfold chars. clear. induction body as [|d b IH]; [left|by right]. }
  split.
  - apply validate_username_accepts. split; [|split; [|done]].
    + rewrite append_cons. simpl in *.
      assert (∀ s t, String.length (s +:+ t) = (String.length s + String.length t)%nat) as Hl
        by (intros s t; induction s as [|? ? IH]; [done|]; rewrite append_cons; simpl; by rewrite IH).
      rewrite Hl. lia.
    + exists c, body. rewrite append_cons. auto.
  - intros Heq. apply (f_equal String.length) in Heq. revert Heq.
    generalize (String c body). intros s. induction s as [|? ? IH]; [done|].
    rewrite append_cons. simpl. intros [= ?]. auto.
Qed.

Lemma validate_username_line_feed_witness :
  validate_username ("carol" +:+ line_feed) db_both = Return ("carol" +:+ line_feed).
Proof.
  apply validate_username_line_feed.
  - by vm_compute.
  - intros c Hc. vm_compute in Hc.
    repeat (apply elem_of_cons in Hc as [->|Hc]; [reflexivity|]). by apply elem_of_nil in Hc.
  - vm_compute. intros H.
    repeat (apply elem_of_cons in H as [H|H]; [discriminate|]). by apply elem_of_nil in H.
Defined.

(** X8: a stored username is never accepted again.  Once a user of that
    name is stored, [validate_username] raises for it; for a name it had
    accepted before the user was stored, the message is that the username
    already exists. *)
Theorem validate_username_taken (value : string) (db db' : DB) :
  value ∈ (User.username <$> users db') →
  (∀ w, validate_username value db' ≠ Return w)
  ∧ (validate_username value db = Return value →
     validate_username value db'
     = Throw (serializers_ValidationError "Username already exists.")).
Proof.
  intros Hin. split.
  - intros w H. pose proof (validate_username_returns _ _ _ H) as ->.
    apply validate_username_accepts in H as (_ & _ & H). done.
  - intros (Hlen & Hshape%username_pattern_shape & _)%validate_username_accepts.
    unfold validate_username.
    rewrite (proj2 (Nat.ltb_ge _ _) Hlen), Hshape, exists_fmap_eq. simpl.
    by rewrite bool_decide_eq_true_2.
Qed.

Lemma validate_username_taken_witness :
  validate_username "bobby" db_alice = Return "bobby"
  ∧ validate_username "bobby" db_both
    = Throw (serializers_ValidationError "Username already exists.").
Proof.
  assert ("bobby" ∈ (User.username <$> users db_both)) as Hin
    by (vm_compute; right; left).
  destruct (validate_username_taken "bobby" db_alice db_both Hin) as [_ H].
  split; [by vm_compute|]. apply H. by vm_compute.
Defined.

(** ** The password validator *)

Lemma search_spec class s :
  search class s = true ↔ ∃ c, c ∈ chars s ∧ class c = true.
Proof.
  unfold chars. induction s as [|d s IH]; simpl.
  - split; [done|]. intros (c & Hc & _). by apply elem_of_nil in Hc.
  - rewrite orb_true_iff, IH. split.
    + intros [Hd|(c & Hc & Hclass)]; [exists d; split; [left|done]|].
      exists c. split; [by right|done].
    + intros (c & [->|Hc]%elem_of_cons & Hclass); eauto.
Qed.

Lemma search_every_false class s :
  every (λ c, negb (class c)) s → search class s = false.
Proof.
  intros Hall. apply not_true_iff_false. intros (c & Hc & Hclass)%search_spec.
  specialize (Hall c Hc). simpl in Hall. by rewrite Hclass in Hall.
Qed.

(** The four classes the password checks look for have no character in
    common. *)
Lemma password_classes_disjoint c :
  (upper_case c = true → lower_case c = false ∧ decimal c = false ∧ symbol c = false)
  ∧ (lower_case c = true → decimal c = false ∧ symbol c = false)
  ∧ (decimal c = true → symbol c = false).
Proof.
  destruct c as [[] [] [] [] [] [] [] []]; vm_compute; repeat split; congruence.
Qed.

Lemma validate_password_accepts password_validators value w :
  validate_password password_validators value = Return w
  ↔ w = value
    ∧ (8 ≤ String.length value)%nat
    ∧ search upper_case value = true
    ∧ search lower_case value = true
    ∧ search decimal value = true
    ∧ search symbol value = true
    ∧ password_validators value = [].
Proof.
  unfold validate_password.
  destruct (Nat.ltb_spec (String.length value) 8).
  { split; [done|]. intros (_ & ? & _). lia. }
  repeat (match goal with |- context [negb (search ?cl value)] =>
            destruct (search cl value); simpl;
            [|split; [done|]; intros (_ & _ & H1 & H2 & H3 & H4 & _); discriminate] end).
  destruct (password_validators value).
  - split; [intros [= <-]; auto 10|]. intros (-> & _). done.
  - split; [done|]. intros (_ & _ & _ & _ & _ & _ & ?). done.
Qed.

(** X9: what an accepted password is made of.  Whatever validators the
    settings configure, a password [validate_password] returns is returned
    unchanged, has at least eight characters, passes every configured
    validator, and contains an upper-case letter, a lower-case letter, a
    decimal digit and a symbol (a character that is neither a word character
    nor whitespace), which are four different characters. *)
Theorem validate_password_accepted
    (password_validators : string → list string) (value w : string) :
  validate_password password_validators value = Return w →
  w = value
  ∧ (8 ≤ String.length value)%nat
  ∧ password_validators value = []
  ∧ ∃ u l d s,
      u ∈ chars value ∧ l ∈ chars value ∧ d ∈ chars value ∧ s ∈ chars value
      ∧ upper_case u = true ∧ lower_case l = true ∧ decimal d = true ∧ symbol s = true
      ∧ NoDup [u; l; d; s].
Proof.
  intros (-> & Hlen & (u & Hu & Hup)%search_spec & (l & Hl & Hlo)%search_spec
          & (d & Hd & Hde)%search_spec & (s & Hs & Hsy)%search_spec & Hpv)%validate_password_accepts.
  split; [done|]. split; [done|]. split; [done|].
  exists u, l, d, s. repeat split; try done.
  destruct (password_classes_disjoint u) as (Hu1 & _ & _).
  destruct (password_classes_disjoint l) as (_ & Hl1 & _).
  destruct (password_classes_disjoint d) as (_ & _ & Hd1).
  destruct (Hu1 Hup) as (Hul & Hud & Hus).
  destruct (Hl1 Hlo) as (Hld & Hls).
  specialize (Hd1 Hde).
  assert (∀ (x : ascii) (rest : list ascii),
            (∀ y, y ∈ rest → x ≠ y) → NoDup rest → NoDup (x :: rest)) as Hcons.
  { intros x rest Hx Hrest. apply NoDup_cons. split; [|done].
    intros Hin. by apply (Hx x Hin). }
  apply Hcons; [|apply Hcons; [|apply Hcons; [|apply NoDup_singleton]]];
    intros y Hy;
    repeat (apply elem_of_cons in Hy as [->|Hy]; [intros ->; congruence|]);
    by apply elem_of_nil in Hy.
Qed.

Lemma validate_password_accepted_witness :
  validate_password (λ _, []) "Secret-123" = Return "Secret-123"
  ∧ (8 ≤ String.length "Secret-123")%nat.
Proof.
  destruct (validate_password_accepted (λ _, []) "Secret-123" "Secret-123")
    as (_ & Hlen & _); [by vm_compute|].
  split; [by vm_compute|exact Hlen].
Defined.

(** X10: no symbol, no password.  A password made only of word characters
    (letters, digits and the underscore) and whitespace is never returned,
    however long it is and whatever validators the settings configure:
    [validate_password] raises one of its own five messages for it. *)
Theorem validate_password_needs_symbol
    (password_validators : string → list string) (value : string) :
  every (λ c, word_char c || isspace c) value →
  ∃ detail,
    validate_password password_validators value = Throw (serializers_ValidationError detail).
Proof.
  intros Hall.
  assert (search symbol value = false) as Hsym.
  { apply search_every_false. intros c Hc. specialize (Hall c Hc). simpl in *.
    unfold symbol. by destruct (word_char c), (isspace c). }
  unfold validate_password. rewrite Hsym.
  destruct (String.length value <? 8)%nat; [by eexists|].
  destruct (search upper_case value); simpl; [|by eexists].
  destruct (search lower_case value); simpl; [|by eexists].
  destruct (search decimal value); simpl; by eexists.
Qed.

Lemma validate_password_needs_symbol_witness :
  ∃ detail,
    validate_password (λ _, []) "Passw0rd_with_underscores"
    = Throw (serializers_ValidationError detail).
Proof.
  apply validate_password_needs_symbol.
  intros c Hc. vm_compute in Hc.
  repeat (apply elem_of_cons in Hc as [->|Hc]; [reflexivity|]). by apply elem_of_nil in Hc.
Defined.

(** ** The mobile number validator *)

(** X11: a mobile number never gets through.  [validate_mobile_number]
    returns for no value and no database: a value that is not all digits or
    has fewer than ten characters gets a validation message, and every other
    value runs into the query on [mobile_number], a column [User] does not
    have, which raises [FieldError]. *)
Theorem validate_mobile_number_never_returns (value : string) (db : DB) :
  (∀ w, validate_mobile_number value db ≠ Return w)
  ∧ (validate_mobile_number value db = Throw (FieldError "mobile_number")
     ↔ str_isdigit value = true ∧ (10 ≤ String.length value)%nat).
Proof.
  unfold validate_mobile_number, User_filter_mobile_number_exists.
  destruct (str_isdigit value); simpl.
  - destruct (Nat.ltb_spec (String.length value) 10); split; try done.
    + split; [done|]. intros [_ ?]. lia.
  - split; [done|]. split; [done|]. by intros [? _].
Qed.

(** X12: a registration that carries a mobile number stores nothing.
    [create] passes the key on to [create_user], and the model has no such
    field: the call raises, [ValueError] for an empty username and
    [TypeError] otherwise, before anything is written. *)
Theorem registration_with_mobile_number
    (env : Env.t) (validated_data : ValidatedData.t) (db : DB) :
  is_Some (ValidatedData.mobile_number validated_data) →
  RegisterSerializer_create env validated_data db
  = (Raise (if bool_decide (ValidatedData.username validated_data = "")
            then ValueError else TypeError), db).
Proof.
  intros Hm. unfold RegisterSerializer_create.
  apply bind_Raise. rewrite create_user_run.
  rewrite (bool_decide_eq_true_2 _ Hm). by case_bool_decide.
Qed.

Lemma registration_with_mobile_number_witness :
  RegisterSerializer_create bob_env
    (ValidatedData.mk "bobby" "bob@example.org" "Secret-456" None None (Some "0123456789"))
    db_alice
  = (Raise TypeError, db_alice).
Proof.
  apply (registration_with_mobile_number bob_env
           (ValidatedData.mk "bobby" "bob@example.org" "Secret-456" None None
                             (Some "0123456789")) db_alice).
  by eexists.
Defined.

(** ** The login identifier *)

Lemma lstrip_split s : ∃ pre, s = pre +:+ lstrip s ∧ every isspace pre.
Proof.
  induction s as [|c s (pre & Hs & Hpre)]; [exists ""; split; [done|apply every_nil]|].
  simpl. destruct (isspace c) eqn:Hc.
  - exists (String c pre). rewrite append_cons, <- Hs. split; [done|by apply every_cons].
  - exists "". split; [done|apply every_nil].
Qed.

Lemma lstrip_head s c r : lstrip s = String c r → isspace c = false.
Proof.
  induction s as [|d s IH]; [done|]. simpl. destruct (isspace d) eqn:Hd; [done|].
  by intros [= <- _].
Qed.

Lemma lstrip_fixed s : (∀ c r, s = String c r → isspace c = false) → lstrip s = s.
Proof. destruct s as [|c s]; [done|]. intros H. simpl. by rewrite (H c s). Qed.

Lemma rstrip_split s : ∃ post, s = rstrip s +:+ post ∧ every isspace post.
Proof.
  induction s as [|c s (post & Hs & Hpost)]; [exists ""; split; [done|apply every_nil]|].
  simpl. destruct (rstrip s) as [|k kept].
  - rewrite append_nil_l in Hs. subst post. destruct (isspace c) eqn:Hc.
    + exists (String c s). split; [done|by apply every_cons].
    + exists s. done.
  - exists post. rewrite append_cons. split; [by f_equal|done].
Qed.

Lemma rstrip_last s r c : rstrip s = r +:+ String c "" → isspace c = false.
Proof.
  revert r. induction s as [|d s IH]; intros r; simpl.
  - destruct r; discriminate.
  - destruct (rstrip s) as [|k kept].
    + destruct (isspace d) eqn:Hd; [destruct r; discriminate|].
      destruct r as [|e [|? ?]]; rewrite ?append_cons; [|discriminate..].
      by intros [= <-].
    + destruct r as [|e r]; rewrite ?append_cons; [discriminate|].
      intros [= _ Hk]. by apply (IH r).
Qed.

Lemma rstrip_keeps_head c s : isspace c = false → ∃ r, rstrip (String c s) = String c r.
Proof. intros Hc. simpl. destruct (rstrip s); rewrite ?Hc; eauto. Qed.

Lemma rstrip_idempotent s : rstrip (rstrip s) = rstrip s.
Proof.
  induction s as [|c s IH]; [done|]. simpl.
  destruct (rstrip s) as [|k kept] eqn:E.
  - destruct (isspace c) eqn:Hc; [done|]. simpl. by rewrite Hc.
  - change (rstrip (String c (String k kept)))
      with (match rstrip (String k kept) with
            | EmptyString => if isspace c then EmptyString else String c EmptyString
            | kept' => String c kept'
            end).
    by rewrite IH.
Qed.

Lemma strip_head s c r : strip s = String c r → isspace c = false.
Proof.
  unfold strip. destruct (lstrip s) as [|d t] eqn:E; [done|].
  pose proof (lstrip_head _ _ _ E) as Hd.
  destruct (rstrip_keeps_head d t Hd) as [r' ->]. by intros [= <- _].
Qed.

Lemma strip_idempotent s : strip (strip s) = strip s.
Proof.
  unfold strip at 1. rewrite (lstrip_fixed (strip s)) by apply strip_head.
  apply rstrip_idempotent.
Qed.

(** X13: what [validate_identifier] returns.  A returned identifier is the
    value with the whitespace around it removed and nothing else changed; it
    has at least three characters; it neither starts nor ends with
    whitespace; and validating it again returns it unchanged. *)
Theorem validate_identifier_accepted (value w : string) :
  validate_identifier value = Return w →
  (∃ pre post, value = pre +:+ w +:+ post ∧ every isspace pre ∧ every isspace post)
  ∧ (3 ≤ String.length w)%nat
  ∧ (∀ c r, w = String c r → isspace c = false)
  ∧ (∀ r c, w = r +:+ String c "" → isspace c = false)
  ∧ validate_identifier w = Return w.
Proof.
  unfold validate_identifier. cbv zeta.
  destruct (Nat.ltb_spec (String.length (strip value)) 3) as [|Hlen]; [done|].
  intros [= <-]. split; [|split; [done|split; [apply strip_head|split]]].
  - destruct (lstrip_split value) as (pre & Hv & Hpre).
    destruct (rstrip_split (lstrip value)) as (post & Hl & Hpost).
    exists pre, post. split; [|done]. unfold strip. by rewrite <- Hl.
  - intros r c. apply rstrip_last.
  - rewrite strip_idempotent. by rewrite (proj2 (Nat.ltb_ge _ _) Hlen).
Qed.

Lemma validate_identifier_accepted_witness :
  validate_identifier "  bob@example.org " = Return "bob@example.org"
  ∧ validate_identifier "bob@example.org" = Return "bob@example.org".
Proof.
  destruct (validate_identifier_accepted "  bob@example.org " "bob@example.org")
    as (_ & _ & _ & _ & H); [by vm_compute|].
  split; [by vm_compute|exact H].
Defined.

(** ** Follow edges and the counts of the profile serializer *)

Lemma AddEdge_cases key now a b db :
  AddEdge key now a b db = (Raise IntegrityError, db)
  ∨ (AddEdge key now a b db
       = (Ok tt, with_follows (λ t, t ++ [Follow.mk key now now true a b]) db)
     ∧ ¬ follow_edge a b db).
Proof.
  unfold AddEdge, bind. rewrite Follow_objects_create_run.
  destruct (decide ((a, b) ∈ follow_pair <$> follows db)) as [Hin|Hin].
  - left. rewrite (bool_decide_eq_true_2 _ Hin), orb_true_r. reflexivity.
  - rewrite (bool_decide_eq_false_2 _ Hin).
    destruct (_ || _); [by left|]. right. split; [done|]. by rewrite follow_edge_pair.
Qed.

Lemma count_snoc {A} (P : A → Prop) `{!∀ x, Decision (P x)} (l : list A) (x : A) :
  Z.of_nat (length (filter P (l ++ [x])))
  = Z.of_nat (length (filter P l)) + (if decide (P x) then 1 else 0).
Proof.
  rewrite filter_app, length_app, Nat2Z.inj_add. f_equal.
  rewrite filter_cons, filter_nil. by destruct (decide (P x)).
Qed.

(** X14: what [AddEdge] does to the graph and to the counts.  A call that
    raises raises [IntegrityError] and leaves the database as it was.  A
    call that returns has stored the edge from [a] to [b], which was not
    stored before, and no other pair has gained or lost its edge (so [b]
    does not follow [a] unless it did); for every profile the followers
    count is one higher if it is [b]'s and unchanged otherwise, and the
    following count is one higher if it is [a]'s and unchanged otherwise. *)
Theorem AddEdge_effect (key : UUID) (now : datetime) (a b : UUID) (db : DB) :
  let db' := (AddEdge key now a b db).2 in
  match (AddEdge key now a b db).1 with
  | Raise e => e = IntegrityError ∧ db' = db
  | Ok _ =>
      ¬ follow_edge a b db ∧ follow_edge a b db'
      ∧ (∀ c d, (c, d) ≠ (a, b) → follow_edge c d db' ↔ follow_edge c d db)
      ∧ ∀ (p : Profile.t) (n m : Z),
          get_followers_count p db = (Ok n, db) →
          get_following_count p db = (Ok m, db) →
          get_followers_count p db'
          = (Ok (n + if decide (Profile.user p = b) then 1 else 0), db')
          ∧ get_following_count p db'
            = (Ok (m + if decide (Profile.user p = a) then 1 else 0), db')
  end.
Proof.
  destruct (AddEdge_cases key now a b db) as [->|[-> Hno]]; simpl; [done|].
  split; [done|]. split; [apply follow_edge_added|]. split.
  - intros c d Hne. rewrite !follow_edge_pair. simpl.
    rewrite fmap_app, elem_of_app. split; [|by left].
    intros [?|Hin]; [done|]. apply list_elem_of_singleton in Hin. done.
  - intros p n m [= <-] [= <-]. unfold get_followers_count, get_following_count, gets. simpl.
    split; do 2 f_equal.
    + rewrite (count_snoc (λ f, Follow.following f = Profile.user p)). simpl.
      f_equal. destruct (decide (b = Profile.user p)), (decide (Profile.user p = b));
        congruence.
    + rewrite (count_snoc (λ f, Follow.follower f = Profile.user p)). simpl.
      f_equal. destruct (decide (a = Profile.user p)), (decide (Profile.user p = a));
        congruence.
Qed.

Lemma followers_counted owner db :
  schema db →
  length (filter (λ f, Follow.following f = owner) (follows db))
  = length (filter (λ u, follow_edge (User.id u) owner db) (users db)).
Proof.
  intros Hs.
  rewrite <- (length_fmap Follow.follower), <- (length_fmap User.id (filter _ (users db))).
  apply Permutation_length, NoDup_Permutation.
  - apply NoDup_fmap_2_strong.
    + intros f g [Hf Hfin]%list_elem_of_filter [Hg Hgin]%list_elem_of_filter Heq.
      apply (NoDup_fmap_eq follow_pair (follows db)); [apply Hs|done..|].
      unfold follow_pair. congruence.
    + apply NoDup_filter. eapply NoDup_fmap_1, (follow_id_unique db Hs).
  - eapply sublist_NoDup; [apply (user_id_unique db Hs)|].
    apply fmap_sublist, sublist_filter.
  - intros x. rewrite !list_elem_of_fmap. split.
    + intros (f & -> & [Hf Hfin]%list_elem_of_filter).
      destruct (follow_ends_stored db Hs f Hfin) as [(u & Hu & Huin)%list_elem_of_fmap _].
      exists u. split; [done|]. apply list_elem_of_filter. split; [|done].
      exists f. rewrite <- Hu. done.
    + intros (u & -> & [(f & Hfin & Hfa & Hfb) Huin]%list_elem_of_filter).
      exists f. split; [done|]. by apply list_elem_of_filter.
Qed.

(** X15: the counts count people.  On a database that meets the declared
    constraints, [get_followers_count] is the number of stored users with a
    follow edge to the profile's owner, and [get_following_count] the number
    of stored users the owner has a follow edge to, each user counted
    once. *)
Theorem follow_counts_count_users (p : Profile.t) (db : DB) :
  schema db →
  get_followers_count p db
  = (Ok (Z.of_nat (length
           (filter (λ u, follow_edge (User.id u) (Profile.user p) db) (users db)))), db)
  ∧ get_following_count p db
    = (Ok (Z.of_nat (length
             (filter (λ u, follow_edge (Profile.user p) (User.id u) db) (users db)))), db).
Proof.
  intros Hs. unfold get_followers_count, get_following_count, gets. split; do 3 f_equal.
  - by apply followers_counted.
  - rewrite <- (length_fmap Follow.following),
            <- (length_fmap User.id (filter _ (users db))).
    apply Permutation_length, NoDup_Permutation.
    + apply NoDup_fmap_2_strong.
      * intros f g [Hf Hfin]%list_elem_of_filter [Hg Hgin]%list_elem_of_filter Heq.
        apply (NoDup_fmap_eq follow_pair (follows db)); [apply Hs|done..|].
        unfold follow_pair. congruence.
      * apply NoDup_filter. eapply NoDup_fmap_1, (follow_id_unique db Hs).
    + eapply sublist_NoDup; [apply (user_id_unique db Hs)|].
      apply fmap_sublist, sublist_filter.
    + intros x. rewrite !list_elem_of_fmap. split.
      * intros (f & -> & [Hf Hfin]%list_elem_of_filter).
        destruct (follow_ends_stored db Hs f Hfin) as [_ (u & Hu & Huin)%list_elem_of_fmap].
        exists u. split; [done|]. apply list_elem_of_filter. split; [|done].
        exists f. rewrite <- Hu. done.
      * intros (u & -> & [(f & Hfin & Hfa & Hfb) Huin]%list_elem_of_filter).
        exists f. split; [done|]. by apply list_elem_of_filter.
Qed.

Lemma db_followed_reachable : reachable db_followed.
Proof. apply (reachable_step db_both); [apply db_both_reachable|constructor]. Qed.

Lemma follow_counts_count_users_witness :
  schema db_followed
  ∧ get_followers_count alice_private db_followed = (Ok 1, db_followed)
  ∧ get_following_count alice_private db_followed = (Ok 0, db_followed).
Proof.
  assert (schema db_followed) as Hs by apply reachable_schema, db_followed_reachable.
  destruct (follow_counts_count_users alice_private db_followed Hs) as [Hers Hing].
  split; [exact Hs|]. split.
  - rewrite Hers. by vm_compute.
  - rewrite Hing. by vm_compute.
Defined.

(** X16: a private profile opens on follow.  For stored identities, a
    viewer who is not the owner and has no edge to the owner of a private
    profile is shown the redaction; once [AddEdge] from the viewer to the
    owner has returned, the same request is shown every field, with a
    followers count one higher than the stored one before. *)
Theorem private_profile_opens_on_follow
    (key : UUID) (now : datetime) (viewer : User.t) (method : string)
    (target : Profile.t) (db : DB) :
  let context := Context.mk (Some (Request.mk (UserInstance viewer) method)) in
  let db' := (AddEdge key now (User.id viewer) (Profile.user target) db).2 in
  User.id viewer ∈ (User.id <$> users db) →
  Profile.user target ∈ (User.id <$> users db) →
  key ∉ (Follow.id <$> follows db) →
  Profile.is_private target = true →
  User.id viewer ≠ Profile.user target →
  ¬ follow_edge (User.id viewer) (Profile.user target) db →
  (to_representation context target db).1 = Ok private_detail
  ∧ (to_representation context target db').1 = Ok (full_fields target db')
  ∧ ∀ n, get_followers_count target db = (Ok n, db) →
         full_fields target db' !! 0%nat = Some ("followers_count", VInt (n + 1)).
Proof.
  intros context db' Hv Ho Hkey Hprivate Hne Hno.
  destruct (follower_sees_private_profile key now viewer method target db
              Hv Ho Hkey Hprivate Hne Hno) as [Hbefore Hafter].
  split; [done|]. split; [done|].
  intros n [= <-]. subst db'.
  rewrite (AddEdge_run _ _ _ _ _ Hv Ho Hkey), (bool_decide_eq_false_2 _ Hno).
  unfold full_fields. cbn [fst snd lookup list_lookup]. simpl.
  rewrite (count_snoc (λ f, Follow.following f = Profile.user target)). simpl.
  by rewrite decide_True.
Qed.

Lemma private_profile_opens_on_follow_witness :
  (to_representation (as_viewer bob) alice_private db_both).1 = Ok private_detail
  ∧ (to_representation (as_viewer bob) alice_private db_followed).1
    = Ok (full_fields alice_private db_followed).
Proof.
  destruct (private_profile_opens_on_follow 31%N 300%N bob "GET" alice_private db_both)
    as (H1 & H2 & _).
  - vm_compute. right. left.
  - vm_compute. left.
  - vm_compute. intros H. by apply elem_of_nil in H.
  - reflexivity.
  - vm_compute. discriminate.
  - apply no_edge_in_sample_data.
  - split; [exact H1|exact H2].
Defined.

Lemma anonymous_viewer_run method instance db :
  to_representation (Context.mk (Some (Request.mk AnonymousUser method))) instance db
  = if Profile.is_private instance
    then (Raise ValidationError, db)
    else (Ok (full_fields instance db), db).
Proof. unfold to_representation. simpl. by destruct (Profile.is_private instance). Qed.

(** X17: an anonymous viewer.  With a request whose user is
    [AnonymousUser], a public profile is returned with every field, and a
    private profile gives neither the fields nor the redaction: the follow
    query is handed a viewer that is no user and raises.  Nothing is written
    either way. *)
Theorem anonymous_viewer (method : string) (instance : Profile.t) (db : DB) :
  to_representation (Context.mk (Some (Request.mk AnonymousUser method))) instance db
  = if Profile.is_private instance
    then (Raise ValidationError, db)
    else (Ok (full_fields instance db), db).
Proof. apply anonymous_viewer_run. Qed.

(** X18: the two authorization axes do not meet.  A permission check reads
    only the request and the [Role] and [UserRole] tables: follows and
    profiles never change its answer.  The profile serializer reads only
    the profile handed to it, the request and the [Follow] table: roles and
    assignments never change what it discloses. *)
Theorem permissions_and_privacy_independent
    (request : Request.t) (view : APIView) (context : Context.t)
    (instance : Profile.t) (db db' : DB) :
  (roles db' = roles db → user_roles db' = user_roles db →
     (IsAdmin_has_permission request view db').1 = (IsAdmin_has_permission request view db).1
     ∧ (IsNormalUser_has_permission request view db').1
       = (IsNormalUser_has_permission request view db).1)
  ∧ (follows db' = follows db →
     (to_representation context instance db').1 = (to_representation context instance db).1).
Proof.
  split.
  - intros Hr Hur. rewrite !IsAdmin_run, !IsNormalUser_run. split; [done|]. simpl.
    destruct (Request.user request) as [|u]; [done|]. f_equal.
    apply bool_decide_ext. unfold holds_role. by rewrite Hr, Hur.
  - intros Hf. destruct context as [[[[|viewer] method]|]].
    + rewrite !anonymous_viewer_run. unfold full_fields. rewrite Hf.
      by destruct (Profile.is_private instance).
    + rewrite !to_representation_viewer. unfold IsFollowing, full_fields. rewrite Hf.
      by destruct (_ && _).
    + simpl. unfold full_fields. by rewrite Hf.
Qed.

(** ** A registration that goes through *)




